(** * IP geolocation core (apis/ip/core.py): shallow embedding and properties

    The module resolves an IP address into a unified record by merging the
    answers of remote JSON services with the local MaxMind databases.  The
    Python code is embedded function by function: dictionaries whose key set
    is open (the unified record, JSON bodies) are finite maps from strings to
    dynamically typed values; the dictionary built by [get_maxmind], whose key
    set is fixed, is a record of optional fields; code that can raise returns
    in an error monad; the outside world (database readers, HTTP, the random
    shuffle) is an explicit [World] argument.

    Strings are byte strings (UTF-8 for the Chinese labels).  Case mapping,
    whitespace and digit tests are the ASCII ones. *)

From Stdlib Require Import ZArith String Ascii List Permutation.
From Stdlib Require Import Floats.SpecFloat.
From stdpp Require Import gmap strings list fin_maps pretty.

Local Open Scope string_scope.
Local Open Scope Z_scope.

(** ** String primitives used by the module *)

Module Str.

Definition lower_ascii (c : ascii) : ascii :=
  let n := nat_of_ascii c in
  if ((65 <=? n) && (n <=? 90))%nat then ascii_of_nat (n + 32) else c.

Definition upper_ascii (c : ascii) : ascii :=
  let n := nat_of_ascii c in
  if ((97 <=? n) && (n <=? 122))%nat then ascii_of_nat (n - 32) else c.

Fixpoint map_chars (f : ascii -> ascii) (s : string) : string :=
  match s with
  | EmptyString => EmptyString
  | String c r => String (f c) (map_chars f r)
  end.

(** [s.lower()] and [s.upper()]. *)
Definition lower : string -> string := map_chars lower_ascii.
Definition upper : string -> string := map_chars upper_ascii.

(** [s.startswith(p)]. *)
Definition startswith (p s : string) : bool := String.prefix p s.

(** [needle in hay] on strings. *)
Fixpoint contains (needle hay : string) : bool :=
  if String.prefix needle hay then true
  else match hay with
       | EmptyString => false
       | String _ r => contains needle r
       end.

Definition is_space (c : ascii) : bool :=
  let n := nat_of_ascii c in
  ((n =? 32) || ((9 <=? n) && (n <=? 13)) || ((28 <=? n) && (n <=? 31)))%nat.

Definition is_digit (c : ascii) : bool :=
  let n := nat_of_ascii c in ((48 <=? n) && (n <=? 57))%nat.

Definition is_hex_digit (c : ascii) : bool :=
  let n := nat_of_ascii c in
  (((48 <=? n) && (n <=? 57)) || ((65 <=? n) && (n <=? 70))
   || ((97 <=? n) && (n <=? 102)))%nat.

Fixpoint lstrip (s : string) : string :=
  match s with
  | String c r => if is_space c then lstrip r else s
  | EmptyString => EmptyString
  end.

Fixpoint rstrip (s : string) : string :=
  match s with
  | EmptyString => EmptyString
  | String c r =>
      match rstrip r with
      | EmptyString => if is_space c then EmptyString else String c EmptyString
      | r' => String c r'
      end
  end.

(** [s.strip()]. *)
Definition strip (s : string) : string := rstrip (lstrip s).

(** [s[n:]]. *)
Fixpoint drop (n : nat) (s : string) : string :=
  match n, s with
  | O, _ => s
  | S n', String _ r => drop n' r
  | S _, EmptyString => EmptyString
  end.

Fixpoint filter_chars (p : ascii -> bool) (s : string) : string :=
  match s with
  | EmptyString => EmptyString
  | String c r => if p c then String c (filter_chars p r) else filter_chars p r
  end.

Fixpoint forall_chars (p : ascii -> bool) (s : string) : bool :=
  match s with
  | EmptyString => true
  | String c r => p c && forall_chars p r
  end.

Definition is_empty (s : string) : bool :=
  match s with EmptyString => true | _ => false end.

(** [sep.join(l)]. *)
Definition join (sep : string) (l : list string) : string := String.concat sep l.

(** [s.split(c)] for a one-character separator: never returns the empty list. *)
Fixpoint split (c : ascii) (s : string) : list string :=
  match s with
  | EmptyString => [EmptyString]
  | String a r =>
      if Ascii.eqb a c then EmptyString :: split c r
      else match split c r with
           | [] => [String a EmptyString]
           | w :: ws => String a w :: ws
           end
  end.

Definition digit_val (c : ascii) : Z :=
  let n := Z.of_nat (nat_of_ascii c) in
  if is_digit c then n - 48
  else if (97 <=? n) && (n <=? 102) then n - 87
  else n - 55.

(** [int(s, base)] on a string already known to hold digits of the base. *)
Definition to_Z (base : Z) (s : string) : Z :=
  fold_left (fun acc c => acc * base + digit_val c) (list_ascii_of_string s) 0.

Definition hex_char (d : Z) : ascii :=
  ascii_of_nat (Z.to_nat (if d <? 10 then 48 + d else 87 + d)).

Fixpoint drop_zeros (ds : list Z) : list Z :=
  match ds with
  | d :: r => if d =? 0 then drop_zeros r else ds
  | [] => []
  end.

(** ['%x' % n] for [0 <= n < 65536]. *)
Definition hex16 (n : Z) : string :=
  let ds := [Z.shiftr n 12 mod 16; Z.shiftr n 8 mod 16; Z.shiftr n 4 mod 16; n mod 16] in
  match drop_zeros ds with
  | [] => "0"
  | l => string_of_list_ascii (map hex_char l)
  end.

(** [str(n)] for an integer. *)
Definition of_Z (n : Z) : string := pretty n.

End Str.

(** ** Exceptions *)

Inductive exc : Type :=
| KeyError
| TypeError
| AttributeError
| ValueError
| OtherError.

Inductive result (A : Type) : Type :=
| Ok (a : A)
| Raise (e : exc).

Arguments Ok {A} a.
Arguments Raise {A} e.

#[global] Instance result_ret : MRet result := fun _ a => Ok a.
#[global] Instance result_bind : MBind result := fun _ _ f m =>
  match m with
  | Ok a => f a
  | Raise e => Raise e
  end.

(** [try: c except Exception: h]. *)
Definition try_except {A} (c : result A) (h : A) : A :=
  match c with
  | Ok a => a
  | Raise _ => h
  end.

Definition is_ok {A} (c : result A) : bool :=
  match c with Ok _ => true | Raise _ => false end.

(** ** Dynamically typed values (what [resp.json()] can return) *)

#[warnings="-register-all"]
Inductive pyval : Type :=
| VNone
| VBool (b : bool)
| VInt (n : Z)
| VFloat (f : spec_float)
| VStr (s : string)
| VList (l : list pyval)
| VDict (d : gmap string pyval).

(** A Python dictionary with string keys. *)
Abbreviation pydict := (gmap string pyval).

Definition float_is_zero (f : spec_float) : bool :=
  match f with S754_zero _ => true | _ => false end.

(** [bool(v)]. *)
Definition truthy (v : pyval) : bool :=
  match v with
  | VNone => false
  | VBool b => b
  | VInt n => negb (n =? 0)
  | VFloat f => negb (float_is_zero f)
  | VStr s => negb (Str.is_empty s)
  | VList l => match l with [] => false | _ => true end
  | VDict d => match map_to_list d with [] => false | _ => true end
  end.

(** [a or b]. *)
Definition py_or (a b : pyval) : pyval := if truthy a then a else b.

(** [v == 0]: holds of the integer zero, of [False] (a [bool] is an [int]) and of
    the two float zeros. *)
Definition eq_zero (v : pyval) : bool :=
  match v with
  | VInt n => n =? 0
  | VBool b => negb b
  | VFloat f => float_is_zero f
  | _ => false
  end.

(** [v in (None, "", 0)]. *)
Definition in_empties (v : pyval) : bool :=
  match v with
  | VNone => true
  | VStr s => Str.is_empty s
  | _ => eq_zero v
  end.

(** [d.get(k, default)] on a value: only dictionaries have [get]. *)
Definition py_get (j : pyval) (k : string) (dflt : pyval) : result pyval :=
  match j with
  | VDict d => Ok (default dflt (d !! k))
  | _ => Raise AttributeError
  end.

(** [d.get(k, default)] on a dictionary. *)
Definition dict_get (d : pydict) (k : string) (dflt : pyval) : pyval :=
  default dflt (d !! k).

(** [v.upper()]: only strings have [upper]. *)
Definition py_upper (v : pyval) : result pyval :=
  match v with
  | VStr s => Ok (VStr (Str.upper s))
  | _ => Raise AttributeError
  end.

(** [sep.join(parts)]: every item must be a string. *)
Fixpoint py_join_items (parts : list pyval) : result (list string) :=
  match parts with
  | [] => Ok []
  | VStr s :: r => l ← py_join_items r; Ok (s :: l)
  | _ :: _ => Raise TypeError
  end.

Definition py_join (sep : string) (parts : list pyval) : result string :=
  l ← py_join_items parts; Ok (Str.join sep l).

(** ** The [ipaddress] standard module, as far as [get_addr] uses it

    Addresses are parsed from their usual textual forms (dotted quad; colon
    separated hextets with at most one [::] and an optional dotted-quad tail)
    into an integer; zone identifiers ([%eth0]) are not modelled and do not
    parse.  A network address prints as [str(network.network_address)] does,
    with the longest run of zero hextets compressed. *)

Module Ipaddress.

Inductive version : Type := V4 | V6.

Definition max_prefixlen (v : version) : Z :=
  match v with V4 => 32 | V6 => 128 end.

Definition all_ones (v : version) : Z := 2 ^ max_prefixlen v - 1.

(** [IPv4Address._parse_octet]. *)
Definition parse_octet (s : string) : option Z :=
  if Str.is_empty s then None
  else if negb (Str.forall_chars Str.is_digit s) then None
  else if (3 <? String.length s)%nat then None
  else if negb (String.eqb s "0") && Str.startswith "0" s then None
  else let n := Str.to_Z 10 s in
       if 255 <? n then None else Some n.

(** [IPv4Address._ip_int_from_string]. *)
Definition parse_ipv4 (s : string) : option Z :=
  match Str.split "." s with
  | [a; b; c; d] =>
      a ← parse_octet a; b ← parse_octet b; c ← parse_octet c; d ← parse_octet d;
      Some (((a * 256 + b) * 256 + c) * 256 + d)
  | _ => None
  end.

(** [IPv6Address._parse_hextet]. *)
Definition parse_hextet (s : string) : option Z :=
  if negb (Str.forall_chars Str.is_hex_digit s) then None
  else if (4 <? String.length s)%nat then None
  else if Str.is_empty s then None
  else Some (Str.to_Z 16 s).

Definition hextets_to_Z (acc : Z) (hs : list Z) : Z :=
  fold_left (fun a h => Z.lor (Z.shiftl a 16) h) hs acc.

Definition nth_is_empty (parts : list string) (i : nat) : bool :=
  match parts !! i with
  | Some p => Str.is_empty p
  | None => false
  end.

(** [IPv6Address._ip_int_from_string]. *)
Definition parse_ipv6 (s : string) : option Z :=
  let parts := Str.split ":" s in
  if (length parts <? 3)%nat then None else
  parts ← (match last parts with
           | Some l =>
               if Str.contains "." l then
                 v4 ← parse_ipv4 l;
                 Some (removelast parts
                         ++ [Str.hex16 (Z.land (Z.shiftr v4 16) 65535);
                             Str.hex16 (Z.land v4 65535)])%list
               else Some parts
           | None => None
           end);
  let n := length parts in
  if (9 <? n)%nat then None else
  match filter (fun i => nth_is_empty parts i = true) (seq 1 (n - 2)) with
  | _ :: _ :: _ => None
  | [skip_index] =>
      let parts_hi := skip_index in
      let parts_lo := (n - skip_index - 1)%nat in
      parts_hi ← (if nth_is_empty parts 0
                  then (if (parts_hi - 1 =? 0)%nat then Some 0%nat else None)
                  else Some parts_hi);
      parts_lo ← (if nth_is_empty parts (n - 1)
                  then (if (parts_lo - 1 =? 0)%nat then Some 0%nat else None)
                  else Some parts_lo);
      if (8 - (parts_hi + parts_lo) <? 1)%nat then None else
      let parts_skipped := (8 - (parts_hi + parts_lo))%nat in
      hi ← mapM parse_hextet (take parts_hi parts);
      lo ← mapM parse_hextet (drop (n - parts_lo) parts);
      Some (hextets_to_Z
              (Z.shiftl (hextets_to_Z 0 hi) (16 * Z.of_nat parts_skipped)) lo)
  | [] =>
      if negb (n =? 8)%nat then None
      else if nth_is_empty parts 0 then None
      else if nth_is_empty parts (n - 1) then None
      else hi ← mapM parse_hextet parts; Some (hextets_to_Z 0 hi)
  end.


(** The netmask of a prefix length: [ALL_ONES ^ (ALL_ONES >> prefixlen)]. *)
Definition netmask (v : version) (prefixlen : Z) : Z :=
  Z.lxor (all_ones v) (Z.shiftr (all_ones v) prefixlen).

(** [IPv4Network(f"{ip}/{mask}", strict=False).network_address], when
    both the address and the prefix length are accepted. *)
Definition network_address (v : version) (ip : string) (mask : Z) : option Z :=
  n ← (match v with V4 => parse_ipv4 ip | V6 => parse_ipv6 ip end);
  if (0 <=? mask) && (mask <=? max_prefixlen v)
  then Some (Z.land n (netmask v mask))
  else None.

(** [ip_network(f"{ip}/{mask}", strict=False)]: IPv4 is tried first, then IPv6. *)
Definition ip_network (ip : string) (mask : Z) : result (version * Z) :=
  match network_address V4 ip mask with
  | Some n => Ok (V4, n)
  | None =>
      match network_address V6 ip mask with
      | Some n => Ok (V6, n)
      | None => Raise ValueError
      end
  end.

(** [IPv4Address._string_from_ip_int]. *)
Definition format_ipv4 (n : Z) : string :=
  Str.join "."
    (map (fun k => Str.of_Z (Z.land (Z.shiftr n (8 * k)) 255)) [3; 2; 1; 0]).

(** The scan of [_compress_hextets]: start and length of the leftmost longest
    run of ["0"] hextets ([-1] and [0] when there is none). *)
Definition best_doublecolon (hextets : list string) : Z * Z :=
  let step (st : Z * Z * Z * Z * Z) (hextet : string) :=
    let '(index, best_start, best_len, cur_start, cur_len) := st in
    if String.eqb hextet "0" then
      let cur_len := cur_len + 1 in
      let cur_start := if cur_start =? -1 then index else cur_start in
      if best_len <? cur_len
      then (index + 1, cur_start, cur_len, cur_start, cur_len)
      else (index + 1, best_start, best_len, cur_start, cur_len)
    else (index + 1, best_start, best_len, -1, 0) in
  let '(_, best_start, best_len, _, _) := fold_left step hextets (0, -1, 0, -1, 0) in
  (best_start, best_len).

(** [IPv6Address._compress_hextets]. *)
Definition compress_hextets (hextets : list string) : list string :=
  let '(best_start, best_len) := best_doublecolon hextets in
  if 1 <? best_len then
    let best_end := best_start + best_len in
    let hextets :=
      if best_end =? Z.of_nat (length hextets)
      then (hextets ++ [""])%list else hextets in
    let hextets :=
      (take (Z.to_nat best_start) hextets ++ [""]
         ++ drop (Z.to_nat best_end) hextets)%list in
    if best_start =? 0 then "" :: hextets else hextets
  else hextets.

(** [IPv6Address._string_from_ip_int]. *)
Definition format_ipv6 (n : Z) : string :=
  Str.join ":"
    (compress_hextets
       (map (fun k => Str.hex16 (Z.land (Z.shiftr n (16 * k)) 65535))
            [7; 6; 5; 4; 3; 2; 1; 0])).

Definition format (v : version) (n : Z) : string :=
  match v with V4 => format_ipv4 n | V6 => format_ipv6 n end.

End Ipaddress.

(** ** Constants and helpers of the module *)

Definition lang : list string := ["zh-CN"; "en"].

(** The operator table, keyed by autonomous-system number. *)
Definition asn_map : gmap Z string := list_to_map [
  (9812, "东方有线"); (9389, "中国长城"); (17962, "天威视讯"); (17429, "歌华有线");
  (7497, "科技网"); (24139, "华数"); (9801, "中关村"); (4538, "教育网");
  (24151, "CNNIC"); (38019, "中国移动"); (139080, "中国移动"); (9808, "中国移动");
  (24400, "中国移动"); (134810, "中国移动"); (24547, "中国移动"); (56040, "中国移动");
  (56041, "中国移动"); (56042, "中国移动"); (56044, "中国移动"); (132525, "中国移动");
  (56046, "中国移动"); (56047, "中国移动"); (56048, "中国移动"); (59257, "中国移动");
  (24444, "中国移动"); (24445, "中国移动"); (137872, "中国移动"); (9231, "中国移动");
  (58453, "中国移动"); (4134, "中国电信"); (4812, "中国电信"); (23724, "中国电信");
  (136188, "中国电信"); (137693, "中国电信"); (17638, "中国电信"); (140553, "中国电信");
  (4847, "中国电信"); (140061, "中国电信"); (136195, "中国电信"); (17799, "中国电信");
  (139018, "中国电信"); (134764, "中国电信"); (4837, "中国联通"); (4808, "中国联通");
  (134542, "中国联通"); (134543, "中国联通"); (59019, "金山云"); (135377, "优刻云");
  (45062, "网易云"); (37963, "阿里云"); (45102, "阿里云国际"); (45090, "腾讯云");
  (132203, "腾讯云国际"); (55967, "百度云"); (38365, "百度云"); (58519, "华为云");
  (55990, "华为云"); (136907, "华为云"); (4609, "澳門電訊"); (13335, "Cloudflare");
  (55960, "亚马逊云"); (14618, "亚马逊云"); (16509, "亚马逊云"); (15169, "谷歌云");
  (396982, "谷歌云"); (36492, "谷歌云"); (137718, "火山引擎")
].

Definition get_as_info (number : Z) : option string := asn_map !! number.

Definition derive_isp_from_org (org_name : string) : option string :=
  if Str.is_empty org_name then None else
  let name := Str.lower org_name in
  if Str.contains "volcano" name || Str.contains "byte" name then Some "火山引擎"
  else if Str.contains "alibaba" name || Str.contains "aliyun" name
          || Str.contains "alicloud" name then Some "阿里云"
  else if Str.contains "tencent" name || Str.contains "qcloud" name then Some "腾讯云"
  else if Str.contains "huawei" name then Some "华为云"
  else if Str.contains "baidu" name then Some "百度云"
  else if Str.contains "amazon" name || Str.contains "aws" name then Some "亚马逊云"
  else if Str.contains "google" name || Str.contains "gcp" name then Some "谷歌云"
  else if Str.contains "cloudflare" name then Some "Cloudflare"
  else None.

(** Truth value of an [Optional[str]]. *)
Definition opt_truthy (o : option string) : bool :=
  match o with
  | Some s => negb (Str.is_empty s)
  | None => false
  end.

(** [a or b] on [Optional[str]]. *)
Definition opt_or (a b : option string) : option string :=
  if opt_truthy a then a else b.

Fixpoint first_lang (langs : list string) (names : gmap string string) : option string :=
  match langs with
  | [] => None
  | i :: rest =>
      match names !! i with
      | Some v => Some v
      | None => first_lang rest names
      end
  end.

(** [get_des(d)], on the value of [d.get('names', {})]. *)
Definition get_des (names : gmap string string) : string :=
  match first_lang lang names with
  | Some v => v
  | None => default "" (names !! "en")
  end.

Definition get_country (names : gmap string string) : string :=
  let country_name := get_des names in
  if existsb (String.eqb country_name) ["香港"; "澳门"; "台湾"]
  then "中国" +:+ country_name
  else country_name.

(** [de_duplicate]: [filter(bool, regions)], then the comprehension that
    appends to [ret] every item not already in [ret]. *)
Definition de_duplicate (regions : list string) : list string :=
  let regions := filter (fun s => Str.is_empty s = false) regions in
  fold_left (fun ret i => if existsb (String.eqb i) ret then ret else (ret ++ [i])%list)
            regions [].

Definition get_addr (ip : string) (mask : Z) : result string :=
  '(v, first_ip) ← Ipaddress.ip_network ip mask;
  Ok (Ipaddress.format v first_ip +:+ "/" +:+ Str.of_Z mask).

(** ** Database records

    What the three MaxMind readers return.  A field the code reads with a
    subscript is always there; a field it reads with [get] or tests with [in]
    is optional.  [names] maps a language code to a name (the empty map when
    the record has no ['names']). *)

Record AsnRecord : Type := {
  autonomous_system_number : Z;
  autonomous_system_organization : string;
}.

Record CountryRecord : Type := {
  iso_code : string;
  country_names : gmap string string;
}.

Record LocationRecord : Type := {
  latitude : option spec_float;
  longitude : option spec_float;
}.

Record CityRecord : Type := {
  city_location : option LocationRecord;
  city_country : option CountryRecord;
  city_registered_country : option CountryRecord;
  city_subdivisions : list (gmap string string);
  city_city : option (gmap string string);
}.

Record CnRecord : Type := {
  cn_province : option string;
  cn_city : option string;
  cn_districts : option string;
  cn_isp : option string;
  cn_net : option string;
}.

(** ** The dictionary built by [get_maxmind] and updated by [get_cn]

    A key of the dictionary is a field; [None] is an absent key. *)

Record AsData : Type := {
  as_number : option Z;
  as_name : option string;
  as_info : option string;
}.

Record CodeName : Type := {
  code : string;
  name : string;
}.

Record Info : Type := {
  info_ip : string;
  info_as : option AsData;
  info_addr : option string;
  info_location : option (pyval * pyval);
  info_country : option CodeName;
  info_registered_country : option CodeName;
  info_regions : option (list string);
  info_province : option string;
  info_city : option string;
  info_type : option string;
}.

Definition new_info (ip : string) : Info :=
  {| info_ip := ip; info_as := None; info_addr := None; info_location := None;
     info_country := None; info_registered_country := None; info_regions := None;
     info_province := None; info_city := None; info_type := None |}.

Definition set_as (x : AsData) (r : Info) : Info :=
  {| info_ip := info_ip r; info_as := Some x; info_addr := info_addr r;
     info_location := info_location r; info_country := info_country r;
     info_registered_country := info_registered_country r;
     info_regions := info_regions r; info_province := info_province r;
     info_city := info_city r; info_type := info_type r |}.

Definition set_addr (x : string) (r : Info) : Info :=
  {| info_ip := info_ip r; info_as := info_as r; info_addr := Some x;
     info_location := info_location r; info_country := info_country r;
     info_registered_country := info_registered_country r;
     info_regions := info_regions r; info_province := info_province r;
     info_city := info_city r; info_type := info_type r |}.

Definition set_location (x : pyval * pyval) (r : Info) : Info :=
  {| info_ip := info_ip r; info_as := info_as r; info_addr := info_addr r;
     info_location := Some x; info_country := info_country r;
     info_registered_country := info_registered_country r;
     info_regions := info_regions r; info_province := info_province r;
     info_city := info_city r; info_type := info_type r |}.

Definition set_country (x : CodeName) (r : Info) : Info :=
  {| info_ip := info_ip r; info_as := info_as r; info_addr := info_addr r;
     info_location := info_location r; info_country := Some x;
     info_registered_country := info_registered_country r;
     info_regions := info_regions r; info_province := info_province r;
     info_city := info_city r; info_type := info_type r |}.

Definition set_registered_country (x : CodeName) (r : Info) : Info :=
  {| info_ip := info_ip r; info_as := info_as r; info_addr := info_addr r;
     info_location := info_location r; info_country := info_country r;
     info_registered_country := Some x;
     info_regions := info_regions r; info_province := info_province r;
     info_city := info_city r; info_type := info_type r |}.

Definition set_regions (x : list string) (r : Info) : Info :=
  {| info_ip := info_ip r; info_as := info_as r; info_addr := info_addr r;
     info_location := info_location r; info_country := info_country r;
     info_registered_country := info_registered_country r;
     info_regions := Some x; info_province := info_province r;
     info_city := info_city r; info_type := info_type r |}.

Definition set_province (x : string) (r : Info) : Info :=
  {| info_ip := info_ip r; info_as := info_as r; info_addr := info_addr r;
     info_location := info_location r; info_country := info_country r;
     info_registered_country := info_registered_country r;
     info_regions := info_regions r; info_province := Some x;
     info_city := info_city r; info_type := info_type r |}.

Definition set_city (x : string) (r : Info) : Info :=
  {| info_ip := info_ip r; info_as := info_as r; info_addr := info_addr r;
     info_location := info_location r; info_country := info_country r;
     info_registered_country := info_registered_country r;
     info_regions := info_regions r; info_province := info_province r;
     info_city := Some x; info_type := info_type r |}.

Definition set_type (x : string) (r : Info) : Info :=
  {| info_ip := info_ip r; info_as := info_as r; info_addr := info_addr r;
     info_location := info_location r; info_country := info_country r;
     info_registered_country := info_registered_country r;
     info_regions := info_regions r; info_province := info_province r;
     info_city := info_city r; info_type := Some x |}.

(** ** The outside world *)

(** What [requests.get(url, timeout=...)] gives: an exception (timeout,
    connection error), or a response whose [json()] returns a value or
    raises. *)
Inductive HttpOutcome : Type :=
| RequestFailed
| Response (status_code : Z) (json : result pyval).

(** An entry of [_sources_for_ip]. *)
Record RemoteSource : Type := {
  url : string;
  mapper : pyval -> result pydict;
}.

Record World : Type := {
  (** [asn_reader.get(ip)] *)
  asn_reader_get : string -> result (option AsnRecord);
  (** [city_reader.get_with_prefix_len(ip)] *)
  city_reader_get_with_prefix_len : string -> result (option CityRecord * Z);
  (** [cn_reader.get_with_prefix_len(ip)] *)
  cn_reader_get_with_prefix_len : string -> result (option CnRecord * Z);
  (** [requests.get(url, timeout=timeout)] *)
  requests_get : string -> HttpOutcome;
  (** the order [random.shuffle] leaves the sources in *)
  random_shuffle : list RemoteSource -> list RemoteSource;
  (** [str(v)] of a float, a list or a dictionary *)
  py_repr : pyval -> string;
}.

(** ** Local pipeline *)

Definition opt_float (o : option spec_float) : pyval :=
  match o with
  | Some f => VFloat f
  | None => VNone
  end.

(** The region list of [get_maxmind] before deduplication: the subdivision
    names, then the city name under the two substring conditions. *)
Definition region_list (country : option CodeName) (city_info : CityRecord) : list string :=
  let regions := map get_des (city_subdivisions city_info) in
  match city_city city_info with
  | Some city_names =>
      let city := get_des city_names in
      let country_name := match country with Some c => name c | None => "" end in
      if (match last regions with
          | None => true
          | Some r => negb (Str.contains city r)
          end) && negb (Str.contains city country_name)
      then (regions ++ [city])%list
      else regions
  | None => regions
  end.

(** The steps of [get_maxmind] that follow the City lookup, once it has found
    a record: location, country, registered country, regions, province and
    city. *)
Definition get_maxmind_geo (ret : Info) (city_info : CityRecord) : Info :=
  let ret :=
    match city_location city_info with
    | Some l => set_location (opt_float (latitude l), opt_float (longitude l)) ret
    | None => ret
    end in
  let ret :=
    match city_country city_info with
    | Some c => set_country {| code := iso_code c;
                               name := get_country (country_names c) |} ret
    | None => ret
    end in
  let ret :=
    match city_registered_country city_info with
    | Some c => set_registered_country
                  {| code := iso_code c;
                     name := get_country (country_names c) |} ret
    | None => ret
    end in
  let regions := region_list (info_country ret) city_info in
  let regions := match regions with [] => [] | _ => de_duplicate regions end in
  let ret := set_regions regions ret in
  match regions with
  | [] => ret
  | first :: _ =>
      let ret := set_province first ret in
      if (1 <? length regions)%nat
      then set_city (default "" (last regions)) ret
      else ret
  end.

(** The operator label of an ASN record: the table first, then the
    organization name. *)
Definition as_data_of (asn_info : AsnRecord) : AsData :=
  let number := autonomous_system_number asn_info in
  let org := autonomous_system_organization asn_info in
  let as_extra := opt_or (get_as_info number) (derive_isp_from_org org) in
  {| as_number := Some number; as_name := Some org;
     as_info := if opt_truthy as_extra then as_extra else None |}.

Definition get_maxmind (w : World) (ip : string) : result Info :=
  let ret := new_info ip in
  (* ASN *)
  asn_info ← asn_reader_get w ip;
  let ret :=
    match asn_info with
    | Some asn_info => set_as (as_data_of asn_info) ret
    | None => ret
    end in
  (* City/Geo *)
  '(city_info, prefix) ← city_reader_get_with_prefix_len w ip;
  addr ← get_addr ip prefix;
  let ret := set_addr addr ret in
  match city_info with
  | None => Ok ret
  | Some city_info => Ok (get_maxmind_geo ret city_info)
  end.

(** The updates of [get_cn] once the record is found and [addr] is computed:
    regions, province and city, the operator label, the network type. *)
Definition get_cn_update (cn_info : CnRecord) (info : Info) : Info :=
  let province := default "" (cn_province cn_info) in
  let city := default "" (cn_city cn_info) in
  let districts := default "" (cn_districts cn_info) in
  let regions := de_duplicate [province; city; districts] in
  let info :=
    match regions with
    | [] => info
    | first :: _ =>
        let info := set_regions regions info in
        let info :=
          if negb (opt_truthy (info_province info))
          then set_province first info else info in
        if (1 <? length regions)%nat && negb (opt_truthy (info_city info))
        then set_city (default "" (last regions)) info
        else info
    end in
  let info :=
    match info_as info with
    | None => set_as {| as_number := None; as_name := None; as_info := None |} info
    | Some _ => info
    end in
  let isp := cn_isp cn_info in
  let info :=
    if opt_truthy isp then
      match info_as info with
      | Some a => set_as {| as_number := as_number a; as_name := as_name a;
                            as_info := isp |} info
      | None => info
      end
    else info in
  let net_val := cn_net cn_info in
  if opt_truthy net_val then set_type (default "" net_val) info else info.

(** [get_cn] updates [info] in place and returns nothing; here it returns the
    updated dictionary.  It can only raise before its first update. *)
Definition get_cn (w : World) (ip : string) (info : Info) : result Info :=
  '(cn_info, prefix) ← cn_reader_get_with_prefix_len w ip;
  match cn_info with
  | None => Ok info
  | Some cn_info =>
      addr ← get_addr ip prefix;
      Ok (get_cn_update cn_info (set_addr addr info))
  end.

Definition opt_str (o : option string) : pyval :=
  match o with
  | Some s => VStr s
  | None => VStr ""
  end.

(** [get_nested(info, [k1, k2], "")] for the four nested dictionaries. *)
Definition get_nested {A} (outer : option A) (inner : A -> option pyval) : pyval :=
  match outer with
  | None => VStr ""
  | Some a =>
      match inner a with
      | None | Some VNone => VStr ""
      | Some v => v
      end
  end.

Definition none_to_empty (v : pyval) : pyval :=
  match v with
  | VNone => VStr ""
  | _ => v
  end.

Definition build_uniform_result (info : Info) : pydict :=
  let result : pydict := list_to_map [
    ("ip", VStr (info_ip info));
    ("addr", opt_str (info_addr info));
    ("as_number", get_nested (info_as info) (fun a => VInt <$> as_number a));
    ("as_name", get_nested (info_as info) (fun a => VStr <$> as_name a));
    ("as_info", get_nested (info_as info) (fun a => VStr <$> as_info a));
    ("country_code", get_nested (info_country info) (fun c => Some (VStr (code c))));
    ("country_name", get_nested (info_country info) (fun c => Some (VStr (name c))));
    ("registered_country_code",
       get_nested (info_registered_country info) (fun c => Some (VStr (code c))));
    ("registered_country_name",
       get_nested (info_registered_country info) (fun c => Some (VStr (name c))));
    ("latitude", get_nested (info_location info) (fun l => Some (fst l)));
    ("longitude", get_nested (info_location info) (fun l => Some (snd l)));
    ("province", opt_str (info_province info));
    ("city", opt_str (info_city info));
    ("regions", match info_regions info with
                | Some (r :: rs) => VStr (Str.join "," (r :: rs))
                | _ => VStr ""
                end);
    ("type", opt_str (info_type info))
  ] in
  none_to_empty <$> result.

Definition is_cn (c : option CodeName) : bool :=
  match c with
  | Some c => String.eqb (code c) "CN"
  | None => false
  end.

Definition get_ip_info_local (w : World) (ip : string) : result pydict :=
  info ← get_maxmind w ip;
  let info :=
    if is_cn (info_country info)
       && (match info_registered_country info with
           | None => true
           | Some _ => is_cn (info_registered_country info)
           end)
    then try_except (get_cn w ip info) info
    else info in
  Ok (build_uniform_result info).

(** ** Remote aggregation *)

(** The test of [_merge_unified]: [key not in base or base.get(key) in (None, "", 0)]. *)
Definition writable (base : pydict) (key : string) : bool :=
  match base !! key with
  | None => true
  | Some v => in_empties v
  end.

Definition _merge_unified (base inc : pydict) : pydict :=
  match map_to_list inc with
  | [] => base
  | _ =>
      map_fold (fun key val base =>
                  if writable base key then <[key := val]> base else base)
               base inc
  end.

(** [str(value)]. *)
Definition py_str (repr : pyval -> string) (value : pyval) : string :=
  match value with
  | VStr s => s
  | VInt n => Str.of_Z n
  | VBool true => "True"
  | VBool false => "False"
  | VNone => "None"
  | _ => repr value
  end.

Definition _as_number_from_string (repr : pyval -> string) (value : pyval) : pyval :=
  match value with
  | VNone => VStr ""
  | _ =>
      let s := Str.strip (py_str repr value) in
      let s := if Str.startswith "AS" (Str.upper s) then Str.drop 2 s else s in
      let digits := Str.filter_chars Str.is_digit s in
      VStr digits
  end.

Definition schema : list string :=
  ["ip"; "addr"; "as_number"; "as_name"; "as_info"; "country_code"; "country_name";
   "registered_country_code"; "registered_country_name"; "latitude"; "longitude";
   "province"; "city"; "regions"; "type"; "timezone"; "isp"].

Definition _unified_template : pydict :=
  list_to_map (map (fun k => (k, VStr "")) schema).

Definition _from_ip_sb (repr : pyval -> string) (j : pyval) : result pydict :=
  let u := _unified_template in
  v ← py_get j "ip" (VStr ""); let u := <["ip" := v]> u in
  v ← py_get j "country_code" (VStr ""); let u := <["country_code" := v]> u in
  v ← py_get j "country" (VStr ""); let u := <["country_name" := v]> u in
  v ← py_get j "latitude" (VStr ""); let u := <["latitude" := v]> u in
  v ← py_get j "longitude" (VStr ""); let u := <["longitude" := v]> u in
  v ← py_get j "timezone" (VStr ""); let u := <["timezone" := v]> u in
  v ← py_get j "asn" VNone;
  let u := <["as_number" := _as_number_from_string repr v]> u in
  a ← py_get j "asn_organization" VNone;
  b ← py_get j "organization" VNone;
  let as_name := py_or (py_or a b) (VStr "") in
  let u := <["as_name" := as_name]> u in
  let u := <["as_info" := as_name]> u in
  v ← py_get j "isp" (VStr ""); let u := <["isp" := v]> u in
  Ok u.

Definition _from_ip2location (repr : pyval -> string) (j : pyval) : result pydict :=
  let u := _unified_template in
  v ← py_get j "ip" (VStr ""); let u := <["ip" := v]> u in
  v ← py_get j "country_code" (VStr ""); let u := <["country_code" := v]> u in
  v ← py_get j "country_name" (VStr ""); let u := <["country_name" := v]> u in
  v ← py_get j "region_name" (VStr ""); let u := <["province" := v]> u in
  v ← py_get j "city_name" (VStr ""); let u := <["city" := v]> u in
  v ← py_get j "latitude" (VStr ""); let u := <["latitude" := v]> u in
  v ← py_get j "longitude" (VStr ""); let u := <["longitude" := v]> u in
  v ← py_get j "asn" VNone;
  let u := <["as_number" := _as_number_from_string repr v]> u in
  as_name ← py_get j "as" (VStr "");
  let u := <["as_name" := as_name]> u in
  let u := <["as_info" := as_name]> u in
  v ← py_get j "time_zone" (VStr ""); let u := <["timezone" := v]> u in
  Ok u.

Definition _from_realip (j : pyval) : result pydict :=
  let u := _unified_template in
  v ← py_get j "ip" (VStr ""); let u := <["ip" := v]> u in
  v ← py_get j "iso_code" (VStr ""); let u := <["country_code" := v]> u in
  v ← py_get j "country" (VStr ""); let u := <["country_name" := v]> u in
  v ← py_get j "province" (VStr ""); let u := <["province" := py_or v (VStr "")]> u in
  v ← py_get j "city" (VStr ""); let u := <["city" := py_or v (VStr "")]> u in
  v ← py_get j "latitude" (VStr ""); let u := <["latitude" := v]> u in
  v ← py_get j "longitude" (VStr ""); let u := <["longitude" := v]> u in
  v ← py_get j "network" (VStr ""); let u := <["addr" := v]> u in
  v ← py_get j "isp" (VStr ""); let u := <["isp" := v]> u in
  Ok u.

Definition _from_ip_api (repr : pyval -> string) (j : pyval) : result pydict :=
  let u := _unified_template in
  v ← py_get j "query" (VStr ""); let u := <["ip" := v]> u in
  v ← py_get j "countryCode" (VStr ""); let u := <["country_code" := v]> u in
  v ← py_get j "country" (VStr ""); let u := <["country_name" := v]> u in
  v ← py_get j "regionName" (VStr ""); let u := <["province" := v]> u in
  a ← py_get j "city" (VStr ""); b ← py_get j "district" (VStr "");
  let u := <["city" := py_or a b]> u in
  v ← py_get j "lat" (VStr ""); let u := <["latitude" := v]> u in
  v ← py_get j "lon" (VStr ""); let u := <["longitude" := v]> u in
  v ← py_get j "timezone" (VStr ""); let u := <["timezone" := v]> u in
  v ← py_get j "isp" (VStr ""); let u := <["isp" := v]> u in
  a ← py_get j "asname" VNone; b ← py_get j "as" VNone;
  let u := <["as_number" := _as_number_from_string repr (py_or a b)]> u in
  a ← py_get j "asname" (VStr ""); b ← py_get j "org" (VStr "");
  let u := <["as_name" := py_or a b]> u in
  v ← py_get j "as" (VStr ""); let u := <["as_info" := v]> u in
  Ok u.

Definition _from_ipapi_is (repr : pyval -> string) (j : pyval) : result pydict :=
  let u := _unified_template in
  v ← py_get j "ip" (VStr ""); let u := <["ip" := v]> u in
  v ← py_get j "location" (VDict ∅); let loc := py_or v (VDict ∅) in
  v ← py_get j "asn" (VDict ∅); let asn := py_or v (VDict ∅) in
  a ← py_get loc "country" VNone; b ← py_get loc "country_code" VNone;
  v ← py_upper (py_or (py_or a b) (VStr ""));
  let u := <["country_code" := v]> u in
  v ← py_get loc "country" (VStr ""); let u := <["country_name" := py_or v (VStr "")]> u in
  v ← py_get loc "state" (VStr ""); let u := <["province" := py_or v (VStr "")]> u in
  v ← py_get loc "city" (VStr ""); let u := <["city" := py_or v (VStr "")]> u in
  v ← py_get loc "latitude" (VStr ""); let u := <["latitude" := v]> u in
  v ← py_get loc "longitude" (VStr ""); let u := <["longitude" := v]> u in
  v ← py_get loc "timezone" (VStr ""); let u := <["timezone" := v]> u in
  v ← py_get asn "asn" VNone;
  let u := <["as_number" := _as_number_from_string repr v]> u in
  v ← py_get asn "org" (VStr ""); let u := <["as_name" := v]> u in
  a ← py_get asn "descr" (VStr ""); b ← py_get asn "org" (VStr "");
  let u := <["as_info" := py_or a b]> u in
  v ← py_get j "company" (VDict ∅);
  v ← py_get (py_or v (VDict ∅)) "name" (VStr ""); let u := <["isp" := v]> u in
  v ← py_get j "is_datacenter" VNone;
  let u := if truthy v then <["type" := VStr "datacenter"]> u else u in
  Ok u.

Definition _from_ipwhois (repr : pyval -> string) (j : pyval) : result pydict :=
  let u := _unified_template in
  v ← py_get j "ip" (VStr ""); let u := <["ip" := v]> u in
  v ← py_get j "country_code" (VStr ""); let u := <["country_code" := v]> u in
  v ← py_get j "country" (VStr ""); let u := <["country_name" := v]> u in
  v ← py_get j "region" (VStr ""); let u := <["province" := v]> u in
  v ← py_get j "city" (VStr ""); let u := <["city" := v]> u in
  v ← py_get j "latitude" (VStr ""); let u := <["latitude" := v]> u in
  v ← py_get j "longitude" (VStr ""); let u := <["longitude" := v]> u in
  a ← py_get j "timezone" (VStr ""); b ← py_get j "timezone_name" (VStr "");
  let u := <["timezone" := py_or a b]> u in
  v ← py_get j "asn" VNone;
  let u := <["as_number" := _as_number_from_string repr v]> u in
  v ← py_get j "org" (VStr ""); let u := <["as_name" := v]> u in
  a ← py_get j "as" (VStr ""); b ← py_get j "org" (VStr "");
  let u := <["as_info" := py_or a b]> u in
  v ← py_get j "isp" (VStr ""); let u := <["isp" := v]> u in
  Ok u.

Definition _sources_for_ip (repr : pyval -> string) (ip lang : string)
  : list RemoteSource := [
  {| url := "https://api.ip.sb/geoip/" +:+ ip; mapper := _from_ip_sb repr |};
  {| url := "https://api.ip2location.io/?ip=" +:+ ip; mapper := _from_ip2location repr |};
  {| url := "https://realip.cc/?ip=" +:+ ip; mapper := _from_realip |};
  {| url := "http://ip-api.com/json/" +:+ ip +:+ "?lang=" +:+ lang;
     mapper := _from_ip_api repr |};
  {| url := "https://api.ipapi.is/?ip=" +:+ ip; mapper := _from_ipapi_is repr |};
  {| url := "https://ipwhois.app/json/" +:+ ip +:+ "?format=json";
     mapper := _from_ipwhois repr |}
].

(** The closing block of [get_ip_info_remote] and of [get_ip_info]: when
    [regions] is empty it is joined from the non-empty ones of [province] and
    [city]. *)
Definition regions_fallback (unified : pydict) : result pydict :=
  if truthy (dict_get unified "regions" VNone) then Ok unified
  else
    let parts := [dict_get unified "province" (VStr "");
                  dict_get unified "city" (VStr "")] in
    if existsb truthy parts then
      s ← py_join "," (filter (fun p => truthy p = true) parts);
      Ok (<["regions" := VStr s]> unified)
    else Ok (<["regions" := VStr ""]> unified).

(** One turn of the loop of [get_ip_info_remote], inside its [try]. *)
Definition query_source (w : World) (src : RemoteSource) (unified : pydict)
  : result pydict :=
  match requests_get w (url src) with
  | RequestFailed => Raise OtherError
  | Response status_code json =>
      if negb (status_code =? 200) then Ok unified
      else
        j ← json;
        partial ← mapper src j;
        Ok (_merge_unified unified partial)
  end.

Fixpoint remote_loop (w : World) (max_sources tried : Z) (unified : pydict)
  (sources : list RemoteSource) : pydict :=
  match sources with
  | [] => unified
  | src :: rest =>
      if max_sources <=? tried then unified
      else
        let tried := tried + 1 in
        let unified := try_except (query_source w src unified) unified in
        remote_loop w max_sources tried unified rest
  end.

(** [get_ip_info_remote(ip, max_sources, timeout, lang)]; the timeout only
    decides what [requests_get] answers. *)
Definition get_ip_info_remote (w : World) (ip : string) (max_sources : Z)
  (lang : string) : result pydict :=
  let sources := random_shuffle w (_sources_for_ip (py_repr w) ip lang) in
  let unified := <["ip" := VStr ip]> _unified_template in
  let unified := remote_loop w max_sources 0 unified sources in
  regions_fallback unified.

Definition get_ip_info (w : World) (ip : string) : result pydict :=
  let remote :=
    try_except (get_ip_info_remote w ip 3 "zh-CN")
               (<["ip" := VStr ip]> _unified_template) in
  let local := try_except (get_ip_info_local w ip) ∅ in
  let merged := _merge_unified remote local in
  regions_fallback merged.


(** ** Specification-level notions *)

(** The deduplication as the specification words it: keep the first occurrence
    of every entry, drop the later ones. *)
Fixpoint stable_dedup (l : list string) : list string :=
  match l with
  | [] => []
  | x :: rest => x :: filter (fun y => y ≠ x) (stable_dedup rest)
  end.

Definition deduplicateOrdered (l : list string) : list string :=
  stable_dedup (filter (fun s => s ≠ "") l).

(** A numeric zero value: the integer [0], [False], or a float zero. *)
Definition numeric_zero (v : pyval) : Prop :=
  v = VInt 0 ∨ v = VBool false ∨ ∃ s, v = VFloat (S754_zero s).

(** A slot of the accumulator that the merge policy may fill: the key is
    absent, or its value is the empty string, [None], or a numeric zero. *)
Definition fillable (slot : option pyval) : Prop :=
  match slot with
  | None => True
  | Some v => v = VStr "" ∨ v = VNone ∨ numeric_zero v
  end.

(** The operator label carried by [info["as"]["info"]], if any. *)
Definition as_label (info : Info) : option string :=
  a ← info_as info; as_info a.

(** The override rule as the specification words it: an operator label the
    ASN step attached is still there after [get_cn] found a record with an ISP
    label. *)
Definition isp_fills_only_missing_label (w : World) (ip : string) (info : Info)
  : Prop :=
  ∀ cn_info prefix info' label,
    cn_reader_get_with_prefix_len w ip = Ok (Some cn_info, prefix) →
    opt_truthy (cn_isp cn_info) = true →
    as_label info = Some label →
    opt_truthy (Some label) = true →
    get_cn w ip info = Ok info' →
    as_label info' = Some label.


(** A value that [",".join] accepts wherever the fallback would pass it: a
    string, or a value that is filtered out as falsy. *)
Definition str_or_falsy (slot : option pyval) : Prop :=
  ∀ v, slot = Some v → truthy v = true → ∃ s, v = VStr s.

(** The record that stands for the remote answer in [get_ip_info]: what
    [get_ip_info_remote] returned, or the template with [ip] set when it
    raised. *)
Definition remote_or_template (w : World) (ip : string) : pydict :=
  try_except (get_ip_info_remote w ip 3 "zh-CN")
             (<["ip" := VStr ip]> _unified_template).

(** The value of a key in a returned record ([None] when the call raised
    or the key is absent). *)
Definition field (k : string) (c : result pydict) : option pyval :=
  match c with
  | Ok r => r !! k
  | Raise _ => None
  end.

(** ** Sample worlds *)

Definition names_of (zh en : string) : gmap string string :=
  <["zh-CN" := zh]> (<["en" := en]> ∅).

Definition beijing : CityRecord := {|
  city_location := Some {| latitude := Some (S754_finite false 1277 (-5));
                           longitude := Some (S754_finite false 3725 (-5)) |};
  city_country := Some {| iso_code := "CN"; country_names := names_of "中国" "China" |};
  city_registered_country := None;
  city_subdivisions := [names_of "北京" "Beijing"];
  city_city := Some (names_of "北京" "Beijing");
|}.

Definition singapore : CityRecord := {|
  city_location := None;
  city_country := Some {| iso_code := "SG";
                          country_names := names_of "新加坡" "Singapore" |};
  city_registered_country := None;
  city_subdivisions := [];
  city_city := Some (names_of "新加坡" "Singapore");
|}.

Definition hangzhou : CityRecord := {|
  city_location := None;
  city_country := Some {| iso_code := "CN"; country_names := names_of "中国" "China" |};
  city_registered_country := None;
  city_subdivisions := [names_of "浙江省" "Zhejiang"];
  city_city := Some (names_of "杭州" "Hangzhou");
|}.

(** A mainland address of AS4134, known to the override database; every remote
    request times out. *)
Definition world_cn : World := {|
  asn_reader_get := fun _ =>
    Ok (Some {| autonomous_system_number := 4134;
                autonomous_system_organization := "Chinanet" |});
  city_reader_get_with_prefix_len := fun _ => Ok (Some beijing, 24);
  cn_reader_get_with_prefix_len := fun _ =>
    Ok (Some {| cn_province := Some "北京"; cn_city := Some "北京";
                cn_districts := Some "海淀"; cn_isp := Some "电信";
                cn_net := None |}, 16);
  requests_get := fun _ => RequestFailed;
  random_shuffle := fun l => l;
  py_repr := fun _ => "";
|}.

(** [world_cn] with other answers to the remote requests and another order of
    the sources. *)
Definition with_remote (answers : string -> HttpOutcome)
  (shuffle : list RemoteSource -> list RemoteSource) : World := {|
  asn_reader_get := asn_reader_get world_cn;
  city_reader_get_with_prefix_len := city_reader_get_with_prefix_len world_cn;
  cn_reader_get_with_prefix_len := cn_reader_get_with_prefix_len world_cn;
  requests_get := answers;
  random_shuffle := shuffle;
  py_repr := py_repr world_cn;
|}.

(** One remote service answers, with a JSON [null] for the time zone. *)
Definition world_null : World :=
  with_remote
    (fun u =>
       if String.eqb u "https://api.ipapi.is/?ip=1.2.3.4"
       then Response 200
              (Ok (VDict (<["ip" := VStr "1.2.3.4"]>
                            (<["location" :=
                                 VDict (<["timezone" := VNone]> ∅)]> ∅))))
       else RequestFailed)
    (@rev RemoteSource).

(** One remote service answers, for another address than the one asked. *)
Definition world_other_ip : World :=
  with_remote
    (fun u =>
       if String.eqb u "https://api.ip.sb/geoip/1.2.3.4"
       then Response 200
              (Ok (VDict (<["ip" := VStr "9.9.9.9"]>
                            (<["timezone" := VStr "Asia/Shanghai"]> ∅))))
       else RequestFailed)
    (fun l => l).

(** One remote service answers, with a number for the region name. *)
Definition world_number : World :=
  with_remote
    (fun u =>
       if String.eqb u "https://api.ip2location.io/?ip=1.2.3.4"
       then Response 200 (Ok (VDict (<["region_name" := VInt 5]> ∅)))
       else RequestFailed)
    (fun l => l).

(** An address of AS45102 in Singapore. *)
Definition world_sg : World := {|
  asn_reader_get := fun _ =>
    Ok (Some {| autonomous_system_number := 45102;
                autonomous_system_organization :=
                  "Alibaba (US) Technology Co., Ltd." |});
  city_reader_get_with_prefix_len := fun _ => Ok (Some singapore, 20);
  cn_reader_get_with_prefix_len := fun _ => Ok (None, 0);
  requests_get := fun _ => RequestFailed;
  random_shuffle := fun l => l;
  py_repr := fun _ => "";
|}.


(** What [get_maxmind] builds for the address of [world_cn]. *)
Definition info_cn : Info :=
  try_except (get_maxmind world_cn "1.2.3.4") (new_info "1.2.3.4").

(** ** Notions for the further properties *)

(** A source gives no partial record: its request fails, its status is not
    200, its body is no JSON, or its mapper raises. *)
Definition unanswered (w : World) (src : RemoteSource) : Prop :=
  ∀ j partial,
    requests_get w (url src) = Response 200 (Ok j) → mapper src j ≠ Ok partial.

(** The non-empty string held under a key, if any. *)
Definition nonempty_str (u : pydict) (k : string) : option string :=
  match u !! k with
  | Some (VStr s) => if Str.is_empty s then None else Some s
  | _ => None
  end.

(** The region string as the fallback synthesizes it: the non-empty ones of
    [province] and [city], joined by a comma. *)
Definition joined_regions (u : pydict) : string :=
  Str.join "," (omap (nonempty_str u) ["province"; "city"]).

(** [world_cn] where only the fourth source of the list would answer. *)
Definition world_fourth : World :=
  with_remote
    (fun u =>
       if String.eqb u "http://ip-api.com/json/1.2.3.4?lang=zh-CN"
       then Response 200 (Ok (VDict (<["isp" := VStr "Example ISP"]> ∅)))
       else RequestFailed)
    (fun l => l).

(** The local databases are down; one remote service answers. *)
Definition world_local_down : World := {|
  asn_reader_get := fun _ => Raise ValueError;
  city_reader_get_with_prefix_len := fun _ => Raise ValueError;
  cn_reader_get_with_prefix_len := fun _ => Raise ValueError;
  requests_get := requests_get world_other_ip;
  random_shuffle := fun l => l;
  py_repr := fun _ => "";
|}.

(** The regions of an override record: its province, city and districts,
    deduplicated. *)
Definition cn_regions (cn_info : CnRecord) : list string :=
  de_duplicate [default "" (cn_province cn_info); default "" (cn_city cn_info);
                default "" (cn_districts cn_info)].

(** The jurisdiction test of [get_ip_info_local]. *)
Definition in_jurisdiction (info : Info) : bool :=
  is_cn (info_country info)
  && match info_registered_country info with
     | None => true
     | Some _ => is_cn (info_registered_country info)
     end.

(** A mainland address whose City record has province and city, known to the
    override database under other names. *)
Definition world_override : World := {|
  asn_reader_get := fun _ => Ok None;
  city_reader_get_with_prefix_len := fun _ => Ok (Some hangzhou, 22);
  cn_reader_get_with_prefix_len := fun _ =>
    Ok (Some {| cn_province := Some "浙江"; cn_city := Some "杭州市";
                cn_districts := Some "西湖区"; cn_isp := None;
                cn_net := Some "宽带" |}, 18);
  requests_get := fun _ => RequestFailed;
  random_shuffle := fun l => l;
  py_repr := fun _ => "";
|}.

(** An address that the ASN database knows and the City database does not. *)
Definition world_no_city : World := {|
  asn_reader_get := fun _ =>
    Ok (Some {| autonomous_system_number := 13335;
                autonomous_system_organization := "CLOUDFLARENET" |});
  city_reader_get_with_prefix_len := fun _ => Ok (None, 8);
  cn_reader_get_with_prefix_len := fun _ => Ok (None, 0);
  requests_get := fun _ => RequestFailed;
  random_shuffle := fun l => l;
  py_repr := fun _ => "";
|}.

(** The keys of the unified record that only a City record can fill. *)
Definition geo_keys : list string :=
  ["country_code"; "country_name"; "registered_country_code";
   "registered_country_name"; "latitude"; "longitude"; "province"; "city";
   "regions"; "type"].

(** The kinds of value of the local record: a string, the integer AS number,
    or a float coordinate. *)
Definition local_value_ok (k : string) (v : pyval) : Prop :=
  (∃ s, v = VStr s)
  ∨ (k = "as_number" ∧ ∃ n, v = VInt n)
  ∨ ((k = "latitude" ∨ k = "longitude") ∧ ∃ f, v = VFloat f).

(** A coordinate as [get_maxmind] stores it. *)
Definition float_or_none (v : pyval) : Prop :=
  v = VNone ∨ ∃ f, v = VFloat f.




(** What every adapter leaves in its partial record: exactly the keys of the
    schema, with [regions] and the registered-country fields empty. *)
Definition partial_ok (p : pydict) : Prop :=
  (∀ k, is_Some (p !! k) ↔ k ∈ schema)
  ∧ p !! "regions" = Some (VStr "")
  ∧ p !! "registered_country_code" = Some (VStr "")
  ∧ p !! "registered_country_name" = Some (VStr "").

(** * The endpoint (apis/ip/api.py) and the key verification it calls
      (app/utils/api_recorder.py)

    [query_ip] serves [get_ip_info] over HTTP once
    [verify_and_record_api_call] has verified the caller's key and counted the
    call.  The request is the three things the code asks of it; the tables
    hold the columns the code reads or writes, a nullable column as an
    option; a row is found by the exact value of its key.  The clock, the
    formatting of dates and of exception messages, and the faults of the
    database session are part of the environment. *)

(** ** Exceptions and results of the endpoint layer *)

Inductive http_exc : Type :=
| HTTPException (status_code : Z) (detail : string)
                (headers : option (list (string * string)))
| Uncaught (e : exc).

Inductive outcome (A : Type) : Type :=
| Return (a : A)
| Throw (e : http_exc).

Arguments Return {A} a.
Arguments Throw {A} e.

#[global] Instance outcome_ret : MRet outcome := fun _ a => Return a.
#[global] Instance outcome_bind : MBind outcome := fun _ _ f m =>
  match m with
  | Return a => f a
  | Throw e => Throw e
  end.

(** An exception of the core becomes an uncaught exception of the endpoint. *)
Definition lift {A} (c : result A) : outcome A :=
  match c with
  | Ok a => Return a
  | Raise e => Throw (Uncaught e)
  end.

(** ** The request, the tables and the environment *)

Record Request : Type := {
  (** [request.query_params.get(name)] *)
  query_params_get : string -> option string;
  (** [request.headers.get(name)] *)
  headers_get : string -> option string;
  (** [request.client.host]; [None] when [request.client] is [None] *)
  client_host : option string;
}.

Record User : Type := {
  user_is_active : option bool;
}.

Record Subscription : Type := {
  sub_user : option User;
  sub_api_id : Z;
  sub_status : option string;
  (** the instant of [end_date], a naive value read as UTC *)
  sub_end_date : Z;
  sub_used_calls : option Z;
  sub_remaining_calls : option Z;
}.

Record API : Type := {
  api_is_active : option bool;
  api_deprecated : option bool;
  api_call_count : option Z;
}.

Record Db : Type := {
  (** table [apis], by [id] *)
  apis : gmap Z API;
  (** table [subscriptions], by [api_key] *)
  subscriptions : gmap string Subscription;
}.

(** The places where the session is used; each can fail on its own. *)
Inductive db_op : Type :=
| OpSession           (* next(get_db()) *)
| OpGetByApiKey       (* crud.SubscriptionCRUD.get_by_api_key, in verify_api_key *)
| OpApiById           (* the API query of verify_api_key *)
| OpRecordApi         (* the API query of record_api_call *)
| OpRecordSubscription (* the subscription query of record_api_call *)
| OpCommit            (* db.commit() *)
| OpRollback          (* db.rollback() *)
| OpClose.            (* db.close() *)

Record Env : Type := {
  world : World;
  (** [datetime.now(timezone.utc)] *)
  now : Z;
  (** [end_date.strftime('%Y-%m-%d %H:%M:%S')] *)
  strftime : Z -> string;
  (** [str(e)] of an exception *)
  exc_str : exc -> string;
  (** whether the operation raises *)
  fault : db_op -> bool;
}.

(** A session operation: raises when the environment says so. *)
Definition session {A} (env : Env) (op : db_op) (a : A) : result A :=
  if fault env op then Raise OtherError else Ok a.

(** Truth value of a nullable Boolean column. *)
Definition bool_truthy (o : option bool) : bool :=
  match o with
  | Some b => b
  | None => false
  end.

(** [s.split()]: the maximal runs of characters that are not whitespace. *)
Fixpoint py_split (s : string) : list string :=
  match s with
  | EmptyString => []
  | String c r =>
      if Str.is_space c then py_split r
      else match r with
           | EmptyString => [String c EmptyString]
           | String c' _ =>
               if Str.is_space c' then String c EmptyString :: py_split r
               else match py_split r with
                    | w :: ws => String c w :: ws
                    | [] => [String c EmptyString]
                    end
           end
  end.

(** ** app/utils/api_recorder.py *)

Definition www_authenticate : option (list (string * string)) :=
  Some [("WWW-Authenticate", "ApiKey")].

(** [key.strip()] when [key and key.strip()] holds. *)
Definition stripped (key : option string) : option string :=
  match key with
  | Some k =>
      if negb (Str.is_empty k) && negb (Str.is_empty (Str.strip k))
      then Some (Str.strip k)
      else None
  | None => None
  end.

(** The loop over the header names. *)
Fixpoint first_header (request : Request) (names : list string) : option string :=
  match names with
  | [] => None
  | header_name :: rest =>
      match stripped (headers_get request header_name) with
      | Some key => Some key
      | None => first_header request rest
      end
  end.

Definition key_missing : http_exc :=
  HTTPException 401
    "API密钥缺失，请在 query(apiKey) 或 Header(X-API-KEY或Authorization) 中提供"
    www_authenticate.

Definition extract_api_key_from_request (request : Request) : outcome string :=
  let key := opt_or (query_params_get request "apiKey")
                    (query_params_get request "api_key") in
  match stripped key with
  | Some key => Return key
  | None =>
      match first_header request ["x-api-key"; "X-API-KEY"; "X-Api-Key"] with
      | Some key => Return key
      | None =>
          let auth := opt_or (headers_get request "Authorization")
                             (headers_get request "authorization") in
          match stripped auth with
          | Some auth =>
              match py_split auth with
              | [scheme; key] =>
                  if String.eqb (Str.lower scheme) "apikey" then Return key
                  else Throw key_missing
              | _ => Throw key_missing
              end
          | None => Throw key_missing
          end
      end
  end.

(** [status_messages.get(status, f"订阅状态异常: {status}")]. *)
Definition status_message (status : option string) : string :=
  match status with
  | Some s =>
      if String.eqb s "expired" then "订阅已过期"
      else if String.eqb s "cancelled" then "订阅已取消"
      else if String.eqb s "suspended" then "订阅已暂停"
      else "订阅状态异常: " +:+ s
  | None => "订阅状态异常: None"
  end.

(** The row that passes is returned by reference: the result is its key. *)
Definition verify_api_key (env : Env) (db : Db) (api_key : option string)
    (api_id : Z) : outcome string :=
  match api_key with
  | None => Throw (HTTPException 401 "API密钥不能为空" www_authenticate)
  | Some key =>
  if Str.is_empty key || (String.length (Str.strip key) =? 0)%nat
  then Throw (HTTPException 401 "API密钥不能为空" www_authenticate) else
  subscription ← lift (session env OpGetByApiKey (subscriptions db !! key));
  match subscription with
  | None => Throw (HTTPException 401 "API密钥不存在" www_authenticate)
  | Some subscription =>
  if negb (bool_decide (sub_status subscription = Some "active"))
  then Throw (HTTPException 401 (status_message (sub_status subscription))
                www_authenticate) else
  if sub_end_date subscription <=? now env
  then Throw (HTTPException 401
                ("订阅已于 " +:+ strftime env (sub_end_date subscription) +:+ " 到期")
                www_authenticate) else
  if match sub_user subscription with
     | None => true
     | Some user => negb (bool_truthy (user_is_active user))
     end
  then Throw (HTTPException 401 "用户账户已被禁用" www_authenticate) else
  if negb (sub_api_id subscription =? api_id)
  then Throw (HTTPException 403 "API密钥不匹配此接口" www_authenticate) else
  api ← lift (session env OpApiById (apis db !! api_id));
  match api with
  | None => Throw (HTTPException 404 "API接口不存在" None)
  | Some api =>
  if negb (bool_truthy (api_is_active api))
  then Throw (HTTPException 403 "API接口不可用" www_authenticate) else
  if bool_truthy (api_deprecated api)
  then Throw (HTTPException 410 "API接口已废弃，请使用新版本" www_authenticate) else
  if match sub_remaining_calls subscription with
     | Some remaining => remaining <=? 0
     | None => false
     end
  then Throw (HTTPException 429 "API调用次数已用完" www_authenticate) else
  Return key
  end end end.

(** [n += 1] on a nullable integer column. *)
Definition incr (n : option Z) : result Z :=
  match n with
  | Some n => Ok (n + 1)
  | None => Raise TypeError
  end.

(** The body of the [try] of [record_api_call]: the tables after the commit
    and the value returned. *)
Definition record_api_call_try (env : Env) (db : Db) (api_key : option string)
    (api_id : Z) : result (Db * bool) :=
  api ← session env OpRecordApi (apis db !! api_id);
  match api with
  | None => Ok (db, false)
  | Some api =>
      subscription ← session env OpRecordSubscription
                       (key ← api_key; subscriptions db !! key);
      match api_key, subscription with
      | Some key, Some subscription =>
          call_count ← incr (api_call_count api);
          used_calls ← incr (sub_used_calls subscription);
          let remaining_calls :=
            match sub_remaining_calls subscription with
            | Some remaining => if 0 <? remaining then Some (remaining - 1)
                                else Some remaining
            | None => None
            end in
          _ ← session env OpCommit ();
          Ok ({| apis := <[api_id :=
                             {| api_is_active := api_is_active api;
                                api_deprecated := api_deprecated api;
                                api_call_count := Some call_count |}]> (apis db);
                 subscriptions := <[key :=
                             {| sub_user := sub_user subscription;
                                sub_api_id := sub_api_id subscription;
                                sub_status := sub_status subscription;
                                sub_end_date := sub_end_date subscription;
                                sub_used_calls := Some used_calls;
                                sub_remaining_calls := remaining_calls |}]>
                             (subscriptions db) |}, true)
      | _, _ => Ok (db, false)
      end
  end.

(** [record_api_call]: an exception of the body is swallowed after the
    rollback, which leaves the tables as they were. *)
Definition record_api_call (env : Env) (db : Db) (api_key : option string)
    (api_id : Z) : outcome (Db * bool) :=
  match record_api_call_try env db api_key api_id with
  | Ok r => Return r
  | Raise _ => _ ← lift (session env OpRollback ()); Return (db, false)
  end.

(** [verify_and_record_api_call]: the tables afterwards, and the row
    returned or the exception raised. *)
Definition verify_and_record_api_call (env : Env) (db : Db) (api_id : Z)
    (request : option Request) (api_key : option string) : Db * outcome string :=
  if fault env OpSession then (db, Throw (Uncaught OtherError)) else
  let body : Db * outcome string :=
    match (match api_key, request with
           | None, Some request =>
               key ← extract_api_key_from_request request; Return (Some key)
           | _, _ => Return api_key
           end) with
    | Throw e => (db, Throw e)
    | Return api_key =>
        match verify_api_key env db api_key api_id with
        | Throw e => (db, Throw e)
        | Return subscription =>
            match record_api_call env db api_key api_id with
            | Throw e => (db, Throw e)
            | Return (db', _) => (db', Return subscription)
            end
        end
    end in
  if fault env OpClose then (body.1, Throw (Uncaught OtherError)) else body.

(** ** apis/ip/api.py *)

Definition API_ID : Z := 4.

Record JSONResponse : Type := {
  status_code : Z;
  content : pyval;
}.

Definition float_finite (f : spec_float) : bool :=
  match f with
  | S754_nan | S754_infinity _ => false
  | _ => true
  end.

(** What [json.dumps(content, allow_nan=False)] accepts: no float that is
    infinite or not a number, at any depth. *)
Fixpoint json_compliant (v : pyval) : bool :=
  match v with
  | VFloat f => float_finite f
  | VList l => forallb json_compliant l
  | VDict d => map_fold (fun _ x acc => json_compliant x && acc) true d
  | _ => true
  end.

(** [JSONResponse(status_code=..., content=...)] renders its content. *)
Definition json_response (status : Z) (content : pyval) : result JSONResponse :=
  if json_compliant content
  then Ok {| status_code := status; content := content |}
  else Raise ValueError.

(** [s.partition('%')]: the text before the first ['%'] and, when there is
    one, the text after it. *)
Fixpoint partition_percent (s : string) : string * option string :=
  match s with
  | EmptyString => (EmptyString, None)
  | String c r =>
      if Ascii.eqb c "%" then (EmptyString, Some r)
      else let '(a, b) := partition_percent r in (String c a, b)
  end.

(** Whether [ipaddress.ip_address(s)] returns: a dotted quad, or an IPv6
    address that may carry a scope identifier. *)
Definition ip_address_accepts (s : string) : bool :=
  match Ipaddress.parse_ipv4 s with
  | Some _ => true
  | None =>
      if Str.contains "/" s then false else
      match partition_percent s with
      | (addr, None) => bool_decide (is_Some (Ipaddress.parse_ipv6 addr))
      | (addr, Some scope_id) =>
          if Str.is_empty scope_id || Str.contains "%" scope_id then false
          else bool_decide (is_Some (Ipaddress.parse_ipv6 addr))
      end
  end.

(** The body of the outer [try] of [query_ip], after the verification. *)
Definition query_ip_body (env : Env) (request : Request) : outcome JSONResponse :=
  let forwarded := headers_get request "x-forwarded-for" in
  client_ip ←
    (if opt_truthy forwarded then Return (default "" forwarded) else
     let real := headers_get request "x-real-ip" in
     if opt_truthy real then Return (default "" real) else
     match client_host request with
     | Some host => Return host
     | None => Throw (Uncaught AttributeError)
     end);
  let ip_param := query_params_get request "ip" in
  let query_ip_val :=
    if opt_truthy ip_param then Str.strip (default "" ip_param) else client_ip in
  if negb (ip_address_accepts query_ip_val)
  then Throw (HTTPException 400 ("无效IP地址：" +:+ query_ip_val) None) else
  ip_info ← lift (get_ip_info (world env) query_ip_val);
  lift (json_response 200
          (VDict (<["code" := VInt 200]>
                  (<["msg" := VStr "IP查询成功（欢迎使用九天API）"]>
                  (<["data" := VDict ip_info]> ∅))))).

(** [query_ip]: the tables afterwards, and the response or the
    [HTTPException] that leaves the handler. *)
Definition query_ip (env : Env) (db : Db) (request : Request)
    : Db * outcome JSONResponse :=
  let '(db', verified) :=
    verify_and_record_api_call env db API_ID (Some request) None in
  let result :=
    match verified with
    | Throw e => Throw e
    | Return _ => query_ip_body env request
    end in
  (db', match result with
        | Return response => Return response
        | Throw (HTTPException status detail headers) =>
            Throw (HTTPException status detail headers)
        | Throw (Uncaught e) =>
            Throw (HTTPException 500 ("IP查询失败：" +:+ exc_str env e) None)
        end).

(** ** Notions used to state the properties of the endpoint *)


(** What [verify_api_key] asks of the two rows, the quota apart. *)
Definition in_good_standing (now api_id : Z) (sub : Subscription) (api : API) : Prop :=
  sub_status sub = Some "active"
  ∧ now < sub_end_date sub
  ∧ (∃ user, sub_user sub = Some user ∧ user_is_active user = Some true)
  ∧ sub_api_id sub = api_id
  ∧ api_is_active api = Some true
  ∧ bool_truthy (api_deprecated api) = false.

(** The subscription is unlimited or has calls left. *)
Definition has_quota (sub : Subscription) : Prop :=
  ∀ r, sub_remaining_calls sub = Some r → 0 < r.

(** The status codes with which a key is refused. *)
Definition refusal_codes : list Z := [401; 403; 404; 410; 429].

Definition no_faults (env : Env) : Prop := ∀ op, fault env op = false.

(** The subscription row after one counted call. *)
Definition use_one (sub : Subscription) (used : Z) : Subscription :=
  {| sub_user := sub_user sub;
     sub_api_id := sub_api_id sub;
     sub_status := sub_status sub;
     sub_end_date := sub_end_date sub;
     sub_used_calls := Some (used + 1);
     sub_remaining_calls :=
       (fun r => if 0 <? r then r - 1 else r) <$> sub_remaining_calls sub |}.

(** The API row after one counted call. *)
Definition call_one (api : API) (count : Z) : API :=
  {| api_is_active := api_is_active api;
     api_deprecated := api_deprecated api;
     api_call_count := Some (count + 1) |}.

(** The call can be counted: the three operations of [record_api_call]
    succeed and the two counters are not null. *)
Definition countable (env : Env) (db : Db) (key : string) (api_id : Z) : Prop :=
  fault env OpRecordApi = false
  ∧ fault env OpRecordSubscription = false
  ∧ fault env OpCommit = false
  ∧ (∃ sub used, subscriptions db !! key = Some sub ∧ sub_used_calls sub = Some used)
  ∧ (∃ api count, apis db !! api_id = Some api ∧ api_call_count api = Some count).

(** One call of [key] to [api_id] has been counted between [db] and [db']. *)
Definition counted (db db' : Db) (key : string) (api_id : Z) : Prop :=
  ∃ sub used api count,
    subscriptions db !! key = Some sub ∧ sub_used_calls sub = Some used
    ∧ apis db !! api_id = Some api ∧ api_call_count api = Some count
    ∧ db' = {| apis := <[api_id := call_one api count]> (apis db);
               subscriptions := <[key := use_one sub used]> (subscriptions db) |}.

(** A sequence of calls with the same key, one per environment. *)
Fixpoint calls (envs : list Env) (db : Db) (api_id : Z) (key : string)
    : Db * list (outcome string) :=
  match envs with
  | [] => (db, [])
  | env :: rest =>
      let '(db1, r) := verify_and_record_api_call env db api_id None (Some key) in
      let '(db2, rs) := calls rest db1 api_id key in
      (db2, r :: rs)
  end.

Definition quota_exhausted : http_exc :=
  HTTPException 429 "API调用次数已用完" www_authenticate.

(** The same environment with other databases and remote services. *)
Definition set_world (w : World) (env : Env) : Env :=
  {| world := w; now := now env; strftime := strftime env;
     exc_str := exc_str env; fault := fault env |}.



Definition internal_error (env : Env) (e : exc) : http_exc :=
  HTTPException 500 ("IP查询失败：" +:+ exc_str env e) None.

(** ** Sample tables and requests *)

Definition env_at (t : Z) : Env :=
  {| world := world_cn; now := t;
     strftime := fun _ => "2030-01-01 00:00:00";
     exc_str := fun _ => "error";
     fault := fun _ => false |}.

Definition subscription_with (remaining : option Z) : Subscription :=
  {| sub_user := Some {| user_is_active := Some true |};
     sub_api_id := 4;
     sub_status := Some "active";
     sub_end_date := 2000;
     sub_used_calls := Some 0;
     sub_remaining_calls := remaining |}.

Definition ip_api : API :=
  {| api_is_active := Some true;
     api_deprecated := Some false;
     api_call_count := Some 10 |}.

Definition db_with (remaining : option Z) : Db :=
  {| apis := {[ 4 := ip_api ]};
     subscriptions := {[ "key-1" := subscription_with remaining ]} |}.

(** A request from [203.0.113.9] with the key [api_key] and the [ip]
    parameter [ip]. *)
Definition request_with (api_key ip : option string) : Request :=
  {| query_params_get := fun name =>
       if String.eqb name "apiKey" then api_key
       else if String.eqb name "ip" then ip else None;
     headers_get := fun _ => None;
     client_host := Some "203.0.113.9" |}.

(** * Properties *)

(** ** Substring test *)

Lemma prefix_spec (p s : string) :
  String.prefix p s = true ↔ ∃ r, s = p +:+ r.
Proof.
  revert s. induction p as [|a p IH]; intros [|b s]; simpl.
  - split; [intros _; by exists "" | done].
  - split; [intros _; by exists (String b s) | done].
  - split; [done | intros [r Hr]; discriminate].
  - destruct (Ascii.ascii_dec a b) as [->|Hne].
    + rewrite IH. split; intros [r Hr]; exists r.
      * by rewrite Hr.
      * by injection Hr.
    + split; [done|]. intros [r Hr]. by injection Hr.
Qed.

(** [Str.contains needle hay] holds exactly when [needle] occurs in [hay]. *)
Lemma contains_spec (needle hay : string) :
  Str.contains needle hay = true ↔ ∃ p s, hay = p +:+ needle +:+ s.
Proof.
  induction hay as [|c hay IH].
  - change (Str.contains needle "")
      with (if String.prefix needle "" then true else false).
    destruct (String.prefix needle "") eqn:E.
    + split; [intros _ | intros _; reflexivity]. apply prefix_spec in E as [r Hr].
      exists "", r. exact Hr.
    + split; [discriminate|]. intros (p & s & H).
      destruct p; [|discriminate]. simpl in H.
      assert (String.prefix needle "" = true) by (apply prefix_spec; eauto).
      congruence.
  - change (Str.contains needle (String c hay))
      with (if String.prefix needle (String c hay) then true
            else Str.contains needle hay).
    destruct (String.prefix needle (String c hay)) eqn:E.
    + split; [intros _ | intros _; reflexivity]. apply prefix_spec in E as [r Hr].
      exists "", r. exact Hr.
    + rewrite IH. split.
      * intros (p & s & ->). exists (String c p), s. reflexivity.
      * intros (p & s & H). destruct p as [|c' p].
        { simpl in H.
          assert (String.prefix needle (String c hay) = true)
            by (apply prefix_spec; eauto).
          congruence. }
        simpl in H. injection H as _ ->. eauto.
Qed.

(** ** The merge policy *)

Lemma in_empties_fillable (v : pyval) : in_empties v = true ↔ fillable (Some v).
Proof.
  unfold fillable, numeric_zero. split.
  - destruct v as [|[]|n|f|s|l|d]; simpl; try discriminate; intros H.
    + by right; left.
    + right; right; right; left. done.
    + apply Z.eqb_eq in H as ->. right; right; left. done.
    + destruct f; try discriminate. right; right; right; right. eauto.
    + destruct s; [by left | discriminate].
  - intros [->|[->|[->|[->|[s ->]]]]]; reflexivity.
Qed.

Lemma writable_fillable (base : pydict) (key : string) :
  writable base key = true ↔ fillable (base !! key).
Proof.
  unfold writable. destruct (base !! key) as [v|].
  - apply in_empties_fillable.
  - simpl. tauto.
Qed.

(** Pointwise description of the merge: a key of [inc] replaces the value in
    [base] when the slot is writable, every other key keeps its value. *)
Lemma merge_unified_lookup (base inc : pydict) (k : string) :
  _merge_unified base inc !! k =
    match inc !! k with
    | Some v => if writable base k then Some v else base !! k
    | None => base !! k
    end.
Proof.
  unfold _merge_unified.
  destruct (map_to_list inc) as [|p l] eqn:E.
  { apply map_to_list_empty_iff in E as ->. by rewrite lookup_empty. }
  clear E. revert k.
  apply (map_fold_weak_ind
           (fun (r : pydict) (m : pydict) => ∀ k, r !! k =
              match m !! k with
              | Some v => if writable base k then Some v else base !! k
              | None => base !! k
              end)).
  - intros k. by rewrite lookup_empty.
  - intros i x m r Hi IH k.
    assert (Hr : writable r i = writable base i).
    { unfold writable. by rewrite IH, Hi. }
    rewrite Hr. destruct (decide (i = k)) as [->|Hne].
    + rewrite lookup_insert_eq. destruct (writable base k) eqn:W.
      * by rewrite lookup_insert_eq.
      * by rewrite IH, Hi.
    + rewrite (lookup_insert_ne m) by done.
      destruct (writable base i); [rewrite lookup_insert_ne by done|]; apply IH.
Qed.

Lemma merge_unified_empty (base : pydict) : _merge_unified base ∅ = base.
Proof. unfold _merge_unified. by rewrite map_to_list_empty. Qed.

Lemma merge_unified_keeps (base inc : pydict) (k : string) (v : pyval) :
  base !! k = Some v → in_empties v = false → _merge_unified base inc !! k = Some v.
Proof.
  intros Hk Hv. rewrite merge_unified_lookup.
  unfold writable. rewrite Hk, Hv. by destruct (inc !! k).
Qed.

Lemma merge_unified_is_Some (base inc : pydict) (k : string) :
  is_Some (base !! k) → is_Some (_merge_unified base inc !! k).
Proof.
  intros [v Hv]. rewrite merge_unified_lookup.
  destruct (inc !! k); [destruct (writable base k)|]; eauto.
Qed.

Lemma merge_unified_absent (base inc : pydict) (k : string) :
  inc !! k = None → _merge_unified base inc !! k = base !! k.
Proof. intros H. by rewrite merge_unified_lookup, H. Qed.

(** C2. Merging [inc] into [base] writes the value that [inc] has for a key
    exactly when the key is absent from [base] or the value [base] has for it is
    the empty string, [None] or a numeric zero; keys outside [inc] keep their
    value, a non-empty field of [base] is never overwritten, and merging
    [{"city": "B", "province": "C"}] into [{"city": "A"}] gives
    [{"city": "A", "province": "C"}]. *)
Theorem merge_unified_policy :
  (∀ (base inc : pydict) (k : string) (v : pyval),
     inc !! k = Some v →
     (fillable (base !! k) → _merge_unified base inc !! k = Some v)
     ∧ (¬ fillable (base !! k) → _merge_unified base inc !! k = base !! k))
  ∧ (∀ (base inc : pydict) (k : string),
       inc !! k = None → _merge_unified base inc !! k = base !! k)
  ∧ _merge_unified (<["city" := VStr "A"]> ∅)
                   (<["city" := VStr "B"]> (<["province" := VStr "C"]> ∅))
    = <["city" := VStr "A"]> (<["province" := VStr "C"]> ∅).
Proof.
  split; [|split].
  - intros base inc k v Hk. rewrite merge_unified_lookup, Hk.
    split; intros H.
    + apply writable_fillable in H. by rewrite H.
    + destruct (writable base k) eqn:W; [|done].
      apply writable_fillable in W. contradiction.
  - apply merge_unified_absent.
  - apply map_eq. intros k. rewrite merge_unified_lookup.
    destruct (decide (k = "city")) as [->|Hc]; [reflexivity|].
    destruct (decide (k = "province")) as [->|Hp]; [reflexivity|].
    by rewrite !lookup_insert_ne, lookup_empty by done.
Qed.

(** ** Ordered deduplication *)

Section Dedup.

Implicit Types (l acc : list string) (x y : string).

Lemma existsb_eqb_elem_of x acc : existsb (String.eqb x) acc = true ↔ x ∈ acc.
Proof.
  rewrite existsb_exists. split.
  - intros (y & Hy & E). apply String.eqb_eq in E as ->. by apply list_elem_of_In.
  - intros H. exists x. split; [by apply list_elem_of_In | apply String.eqb_refl].
Qed.

Lemma is_empty_false x : Str.is_empty x = false ↔ x ≠ "".
Proof. destruct x; simpl; split; congruence. Qed.

Lemma filter_nonempty l :
  filter (fun s => Str.is_empty s = false) l = filter (fun s => s ≠ "") l.
Proof. apply list_filter_iff. intros x. apply is_empty_false. Qed.

Lemma filter_absorb (P : string → Prop) `{∀ y, Decision (P y)} x l :
  ¬ P x → filter P (filter (fun y => y ≠ x) l) = filter P l.
Proof.
  intros Hx. rewrite list_filter_filter. apply list_filter_iff.
  intros y. split; [tauto|]. intros Hy. split; [done|]. by intros ->.
Qed.

(** Filtering commutes with keeping first occurrences. *)
Lemma filter_stable_dedup (P : string → Prop) `{∀ y, Decision (P y)} l :
  filter P (stable_dedup l) = stable_dedup (filter P l).
Proof.
  induction l as [|x l IH]; [done|]. simpl.
  destruct (decide (P x)) as [Hx|Hx].
  - rewrite !filter_cons_True by done. simpl. f_equal.
    rewrite <- IH, !list_filter_filter. apply list_filter_iff. tauto.
  - rewrite !filter_cons_False by done. by rewrite filter_absorb.
Qed.

(** The accumulator loop of [de_duplicate], started from any [acc]. *)
Lemma dedup_loop acc l :
  fold_left (fun ret i => if existsb (String.eqb i) ret then ret else (ret ++ [i])%list)
            l acc
  = (acc ++ stable_dedup (filter (fun y => y ∉ acc) l))%list.
Proof.
  revert acc. induction l as [|x l IH]; intros acc; simpl.
  { by rewrite app_nil_r. }
  destruct (existsb (String.eqb x) acc) eqn:E.
  - apply existsb_eqb_elem_of in E. rewrite IH.
    by rewrite filter_cons_False by tauto.
  - assert (Hx : x ∉ acc).
    { intros Hin. apply existsb_eqb_elem_of in Hin. congruence. }
    rewrite IH, filter_cons_True by done. simpl.
    rewrite <- app_assoc. simpl. do 2 f_equal.
    rewrite filter_stable_dedup, list_filter_filter. f_equal.
    apply list_filter_iff. intros y.
    rewrite not_elem_of_app, list_elem_of_singleton. tauto.
Qed.

Lemma de_duplicate_spec l : de_duplicate l = deduplicateOrdered l.
Proof.
  unfold de_duplicate, deduplicateOrdered.
  rewrite dedup_loop. simpl. f_equal.
  rewrite list_filter_filter. apply list_filter_iff. intros y.
  rewrite is_empty_false. split; [tauto|].
  intros Hy. split; [apply not_elem_of_nil | done].
Qed.

Lemma elem_of_stable_dedup x l : x ∈ stable_dedup l ↔ x ∈ l.
Proof.
  induction l as [|y l IH]; simpl; [done|].
  rewrite !elem_of_cons, list_elem_of_filter, IH.
  destruct (decide (x = y)); tauto.
Qed.

Lemma NoDup_stable_dedup l : NoDup (stable_dedup l).
Proof.
  induction l as [|y l IH]; simpl; constructor.
  - rewrite list_elem_of_filter. tauto.
  - by apply NoDup_filter.
Qed.

Lemma sublist_stable_dedup l : stable_dedup l `sublist_of` l.
Proof.
  induction l as [|y l IH]; simpl; [done|].
  apply sublist_skip. etrans; [apply sublist_filter | done].
Qed.

Lemma de_duplicate_nil : de_duplicate [] = [].
Proof. reflexivity. Qed.

End Dedup.

(** C8. [de_duplicate] drops the empty entries and then keeps the first
    occurrence of every entry, in the order of the input: it computes the
    specified stable deduplication, its result has no duplicates, holds
    exactly the non-empty entries of the input, and is a subsequence of the
    input; [de_duplicate(["Beijing", "", "Beijing", "Haidian"])] is
    [["Beijing", "Haidian"]]. *)
Theorem de_duplicate_ordered (l : list string) :
  de_duplicate l = deduplicateOrdered l
  ∧ NoDup (de_duplicate l)
  ∧ (∀ x, x ∈ de_duplicate l ↔ x ∈ l ∧ x ≠ "")
  ∧ de_duplicate l `sublist_of` l
  ∧ de_duplicate ["Beijing"; ""; "Beijing"; "Haidian"] = ["Beijing"; "Haidian"].
Proof.
  rewrite de_duplicate_spec. unfold deduplicateOrdered.
  split_and!.
  - done.
  - apply NoDup_stable_dedup.
  - intros x. rewrite elem_of_stable_dedup, list_elem_of_filter. tauto.
  - trans (filter (fun s : string => s ≠ "") l).
    + apply sublist_stable_dedup.
    + apply sublist_filter.
  - reflexivity.
Qed.

(** ** Network prefix *)







(** ** The local pipeline *)

Lemma bind_Ok {A B} (m : result A) (f : A → result B) (b : B) :
  (x ← m; f x) = Ok b → ∃ a, m = Ok a ∧ f a = Ok b.
Proof. destruct m as [a|e]; simpl; [eauto | discriminate]. Qed.

Lemma get_maxmind_inv (w : World) (ip : string) (info : Info) :
  get_maxmind w ip = Ok info →
  ∃ asn_info city_info prefix addr,
    asn_reader_get w ip = Ok asn_info
    ∧ city_reader_get_with_prefix_len w ip = Ok (city_info, prefix)
    ∧ get_addr ip prefix = Ok addr
    ∧ let ret := set_addr addr
                   (match asn_info with
                    | Some a => set_as (as_data_of a) (new_info ip)
                    | None => new_info ip
                    end) in
      info = match city_info with
             | Some ci => get_maxmind_geo ret ci
             | None => ret
             end.
Proof.
  unfold get_maxmind. intros H.
  apply bind_Ok in H as (asn_info & Hasn & H).
  apply bind_Ok in H as ([city_info prefix] & Hcity & H).
  apply bind_Ok in H as (addr & Haddr & H).
  exists asn_info, city_info, prefix, addr. split_and!; try done.
  destruct city_info; by injection H.
Qed.

(** Case analysis on the branches of [get_maxmind_geo]. *)
Ltac geo_cases city_info :=
  unfold get_maxmind_geo;
  destruct (city_location city_info), (city_country city_info),
    (city_registered_country city_info); simpl;
  match goal with
  | |- context [region_list ?c city_info] =>
      destruct (region_list c city_info) as [|? ?]; simpl
  end;
  try match goal with
  | |- context [de_duplicate ?l] => destruct (de_duplicate l) as [|? [|? ?]]; simpl
  end.

Lemma get_maxmind_geo_as (ret : Info) (city_info : CityRecord) :
  info_as (get_maxmind_geo ret city_info) = info_as ret.
Proof. geo_cases city_info; reflexivity. Qed.

Lemma get_maxmind_geo_ip (ret : Info) (city_info : CityRecord) :
  info_ip (get_maxmind_geo ret city_info) = info_ip ret.
Proof. geo_cases city_info; reflexivity. Qed.

Lemma get_maxmind_geo_country (ret : Info) (city_info : CityRecord) :
  info_country ret = None →
  info_country (get_maxmind_geo ret city_info)
  = (fun c => {| code := iso_code c; name := get_country (country_names c) |})
      <$> city_country city_info.
Proof. intros H. geo_cases city_info; done. Qed.

Lemma last_cons_default (x d : string) (l : list string) :
  Some (default d (last (x :: l))) = last (x :: l).
Proof.
  destruct (last (x :: l)) as [y|] eqn:E; [done|].
  by apply last_None in E.
Qed.



Lemma asn_map_labels_nonempty (number : Z) (label : string) :
  asn_map !! number = Some label → Str.is_empty label = false.
Proof.
  revert number label.
  change (map_Forall (fun (_ : Z) label => Str.is_empty label = false) asn_map).
  apply map_Forall_to_list. vm_compute. repeat constructor.
Qed.

Lemma derive_isp_nonempty (org label : string) :
  derive_isp_from_org org = Some label → Str.is_empty label = false.
Proof.
  unfold derive_isp_from_org. intros H.
  repeat match type of H with
         | (if ?b then _ else _) = _ => destruct b
         end; by simplify_eq.
Qed.

(** The label [get_maxmind] attaches: the table entry when there is one, else
    what the organization name gives. *)
Lemma as_data_of_label (a : AsnRecord) :
  as_info (as_data_of a)
  = match asn_map !! autonomous_system_number a with
    | Some label => Some label
    | None => derive_isp_from_org (autonomous_system_organization a)
    end.
Proof.
  unfold as_data_of, opt_or, get_as_info. cbn [as_info].
  destruct (asn_map !! autonomous_system_number a) as [label|] eqn:E.
  - pose proof (asn_map_labels_nonempty _ _ E) as Hl.
    cbn [opt_truthy]. rewrite Hl. cbn [negb opt_truthy]. by rewrite Hl.
  - cbn [opt_truthy].
    destruct (derive_isp_from_org _) as [label|] eqn:D; [|done].
    cbn [opt_truthy]. by rewrite (derive_isp_nonempty _ _ D).
Qed.

(** C7. When the ASN database knows the address, the operator label that the
    local pipeline attaches to [as.info] is the entry of [asn_map] for the
    number whenever there is one, whatever the organization name; the
    organization-name heuristic decides only when the table has no entry. *)
Theorem table_before_heuristic (w : World) (ip : string) (info : Info) (a : AsnRecord) :
  asn_reader_get w ip = Ok (Some a) →
  get_maxmind w ip = Ok info →
  ∃ d, info_as info = Some d
       ∧ as_number d = Some (autonomous_system_number a)
       ∧ as_name d = Some (autonomous_system_organization a)
       ∧ as_info d = match asn_map !! autonomous_system_number a with
                     | Some label => Some label
                     | None => derive_isp_from_org (autonomous_system_organization a)
                     end.
Proof.
  intros Hasn H.
  apply get_maxmind_inv in H as (asn_info & ci & prefix & addr & Ha & _ & _ & ->).
  rewrite Hasn in Ha. injection Ha as <-.
  exists (as_data_of a). split_and!; try reflexivity.
  - destruct ci; [by rewrite get_maxmind_geo_as|done].
  - apply as_data_of_label.
Qed.

Lemma table_before_heuristic_witness :
  derive_isp_from_org "Alibaba (US) Technology Co., Ltd." = Some "阿里云"
  ∧ ∃ info, get_maxmind world_sg "47.74.0.1" = Ok info
            ∧ as_label info = Some "阿里云国际".
Proof.
  split; [vm_compute; reflexivity|].
  destruct (get_maxmind world_sg "47.74.0.1") as [info|e] eqn:E;
    [|vm_compute in E; discriminate].
  exists info. split; [reflexivity|].
  destruct (table_before_heuristic world_sg "47.74.0.1" info
              {| autonomous_system_number := 45102;
                 autonomous_system_organization :=
                   "Alibaba (US) Technology Co., Ltd." |})
    as (d & Hd & _ & _ & Hl).
  - reflexivity.
  - exact E.
  - unfold as_label. rewrite Hd. simpl. rewrite Hl. vm_compute. reflexivity.
Defined.



Lemma get_cn_inv (w : World) (ip : string) (info info' : Info) :
  get_cn w ip info = Ok info' →
  ∃ cn_info prefix,
    cn_reader_get_with_prefix_len w ip = Ok (cn_info, prefix)
    ∧ match cn_info with
      | None => info' = info
      | Some cn_info =>
          ∃ addr, get_addr ip prefix = Ok addr
                  ∧ info' = get_cn_update cn_info (set_addr addr info)
      end.
Proof.
  unfold get_cn. intros H.
  apply bind_Ok in H as ([cn_info prefix] & Hcn & H).
  exists cn_info, prefix. split; [done|].
  destruct cn_info as [cn_info|]; [|by injection H].
  apply bind_Ok in H as (addr & Haddr & H).
  exists addr. split; [done|]. by injection H.
Qed.

(** The operator label after the updates of [get_cn]: the ISP label of the
    override record when it has one, else the label that was there. *)
Lemma get_cn_update_label (cn_info : CnRecord) (info : Info) :
  as_label (get_cn_update cn_info info)
  = if opt_truthy (cn_isp cn_info) then cn_isp cn_info else as_label info.
Proof.
  unfold get_cn_update, as_label. cbv zeta.
  destruct info as [ip [a|] addr loc c rc rs [p|] [y|] t];
  destruct (opt_truthy (cn_isp cn_info)), (opt_truthy (cn_net cn_info)),
    (de_duplicate _) as [|d0 ds]; simpl;
    repeat match goal with
      | |- context [if ?b then _ else _] =>
          lazymatch type of b with bool => destruct b; simpl end
      end;
    reflexivity.
Qed.

(** C4 (amended). When the override database finds a record, the operator
    label after [get_cn] is the ISP label of that record whenever the record
    has a non-empty one, also when the ASN step had attached a label; it is the
    label of the ASN step only when the record has no ISP label. *)
Theorem override_isp_label (w : World) (ip : string) (info info' : Info)
  (cn_info : CnRecord) (prefix : Z) :
  cn_reader_get_with_prefix_len w ip = Ok (Some cn_info, prefix) →
  get_cn w ip info = Ok info' →
  as_label info'
  = if opt_truthy (cn_isp cn_info) then cn_isp cn_info else as_label info.
Proof.
  intros Hcn H.
  apply get_cn_inv in H as (cn' & p & Hcn' & H).
  rewrite Hcn in Hcn'. injection Hcn' as <- <-.
  destruct H as (addr & _ & ->).
  by rewrite get_cn_update_label.
Qed.

Lemma override_isp_label_witness :
  ∃ info', get_cn world_cn "1.2.3.4" info_cn = Ok info'
           ∧ as_label info' = Some "电信".
Proof.
  destruct (get_cn world_cn "1.2.3.4" info_cn) as [info'|e] eqn:E;
    [|vm_compute in E; discriminate].
  exists info'. split; [reflexivity|].
  rewrite (override_isp_label world_cn "1.2.3.4" info_cn info' _ 16 eq_refl E).
  reflexivity.
Defined.

(** The override replaces a label that the ASN step attached: for an address
    of AS4134 the label of the table is overwritten by the ISP label of the
    override record. *)
Lemma override_isp_label_counterexample :
  ¬ isp_fills_only_missing_label world_cn "1.2.3.4" info_cn.
Proof.
  intros H.
  destruct (get_cn world_cn "1.2.3.4" info_cn) as [info'|e] eqn:E;
    [|vm_compute in E; discriminate].
  specialize (H _ 16 info' "中国电信" eq_refl eq_refl eq_refl eq_refl E).
  vm_compute in E. injection E as <-. vm_compute in H. discriminate H.
Qed.

(** ** The unified template and the local record *)

Lemma template_lookup (k : string) :
  k ∈ schema → _unified_template !! k = Some (VStr "").
Proof.
  unfold schema. rewrite !elem_of_cons, elem_of_nil.
  intros H. repeat destruct H as [->|H]; [vm_compute; reflexivity ..|done].
Qed.

Lemma template_lookup_inv (k : string) (v : pyval) :
  _unified_template !! k = Some v → v = VStr "" ∧ k ∈ schema.
Proof.
  unfold _unified_template. intros H.
  apply elem_of_list_to_map_2, list_elem_of_fmap in H as (k' & [= -> ->] & Hk).
  done.
Qed.


Lemma build_uniform_result_no_none (info : Info) (k : string) :
  build_uniform_result info !! k ≠ Some VNone.
Proof.
  unfold build_uniform_result. rewrite lookup_fmap.
  destruct (_ !! k) as [[]|]; simpl; congruence.
Qed.

Lemma build_uniform_result_ip (info : Info) :
  build_uniform_result info !! "ip" = Some (VStr (info_ip info)).
Proof. reflexivity. Qed.

Lemma build_uniform_result_province (info : Info) :
  build_uniform_result info !! "province" = Some (opt_str (info_province info)).
Proof. unfold build_uniform_result. rewrite lookup_fmap.
  by destruct (info_province info). Qed.

Lemma build_uniform_result_city (info : Info) :
  build_uniform_result info !! "city" = Some (opt_str (info_city info)).
Proof. unfold build_uniform_result. rewrite lookup_fmap.
  by destruct (info_city info). Qed.

Lemma build_uniform_result_regions (info : Info) :
  ∃ s, build_uniform_result info !! "regions" = Some (VStr s).
Proof.
  unfold build_uniform_result. rewrite lookup_fmap.
  destruct (info_regions info) as [[|r rs]|]; by eexists.
Qed.

(** ** Remote aggregation and the coordinator *)

Lemma truthy_not_in_empties (v : pyval) : truthy v = true → in_empties v = false.
Proof.
  destruct v as [|[]|n|f|s|l|d]; simpl; try done.
  - by intros ->%negb_true_iff.
  - by intros ->%negb_true_iff.
  - by intros ->%negb_true_iff.
Qed.

Lemma dict_get_lookup (u : pydict) (k : string) (d v : pyval) :
  u !! k = Some v → dict_get u k d = v.
Proof. unfold dict_get. by intros ->. Qed.

(** The fallback only ever writes [regions]. *)
Lemma regions_fallback_lookup (u u' : pydict) (k : string) :
  regions_fallback u = Ok u' → k ≠ "regions" → u' !! k = u !! k.
Proof.
  unfold regions_fallback. intros H Hk.
  destruct (truthy (dict_get u "regions" VNone)); [by injection H as <-|].
  destruct (existsb truthy _).
  - apply bind_Ok in H as (s & _ & [= <-]). by rewrite lookup_insert_ne.
  - injection H as <-. by rewrite lookup_insert_ne.
Qed.

Lemma regions_fallback_regions (u u' : pydict) :
  regions_fallback u = Ok u' →
  (truthy (dict_get u "regions" VNone) = true ∧ u' = u)
  ∨ ∃ s, u' !! "regions" = Some (VStr s).
Proof.
  unfold regions_fallback. intros H.
  destruct (truthy (dict_get u "regions" VNone)); [left; by injection H as <-|].
  right. destruct (existsb truthy _).
  - apply bind_Ok in H as (s & _ & [= <-]). exists s. apply lookup_insert_eq.
  - injection H as <-. exists "". apply lookup_insert_eq.
Qed.

Lemma regions_fallback_is_Some (u u' : pydict) (k : string) :
  regions_fallback u = Ok u' → is_Some (u !! k) → is_Some (u' !! k).
Proof.
  intros H Hk. destruct (decide (k = "regions")) as [->|Hne].
  - destruct (regions_fallback_regions _ _ H) as [[_ ->]|[s ->]]; eauto.
  - by rewrite (regions_fallback_lookup _ _ _ H Hne).
Qed.

Lemma py_join_items_strings (parts : list pyval) :
  Forall (fun v => ∃ s, v = VStr s) parts → ∃ l, py_join_items parts = Ok l.
Proof.
  induction 1 as [|v parts [s ->] _ [l IH]]; simpl; [by eexists|].
  rewrite IH. simpl. by eexists.
Qed.

Lemma py_join_items_inv (parts : list pyval) (l : list string) :
  py_join_items parts = Ok l → Forall (fun v => ∃ s, v = VStr s) parts.
Proof.
  revert l. induction parts as [|v parts IH]; intros l H; [constructor|].
  destruct v; simpl in H; try discriminate.
  apply bind_Ok in H as (l' & Hl' & _). constructor; eauto.
Qed.

Lemma str_or_falsy_get (u : pydict) (k : string) :
  str_or_falsy (u !! k) →
  truthy (dict_get u k (VStr "")) = true → ∃ s, dict_get u k (VStr "") = VStr s.
Proof.
  unfold str_or_falsy, dict_get. destruct (u !! k) as [v|]; simpl; [eauto|done].
Qed.

(** The fallback returns whenever [province] and [city] are strings or falsy. *)
Lemma regions_fallback_total (u : pydict) :
  str_or_falsy (u !! "province") → str_or_falsy (u !! "city") →
  ∃ u', regions_fallback u = Ok u'.
Proof.
  intros Hp Hc. unfold regions_fallback.
  destruct (truthy (dict_get u "regions" VNone)); [by eexists|].
  destruct (existsb truthy _); [|by eexists].
  unfold py_join.
  destruct (py_join_items_strings
              (filter (fun p => truthy p = true)
                 [dict_get u "province" (VStr ""); dict_get u "city" (VStr "")]))
    as [l ->]; [|simpl; by eexists].
  apply Forall_forall. intros v [Hv Hin]%list_elem_of_filter.
  rewrite !elem_of_cons, elem_of_nil in Hin.
  destruct Hin as [->|[->|Hin]]; [by apply str_or_falsy_get ..|done].
Qed.

(** When the fallback returns, either [regions] was already set, or
    [province] and [city] were strings or falsy. *)
Lemma regions_fallback_inv (u u' : pydict) :
  regions_fallback u = Ok u' →
  truthy (dict_get u' "regions" VNone) = true
  ∨ (str_or_falsy (u' !! "province") ∧ str_or_falsy (u' !! "city")).
Proof.
  intros H. pose proof H as H'. unfold regions_fallback in H.
  destruct (truthy (dict_get u "regions" VNone)) eqn:Hr.
  { injection H as <-. by left. }
  right.
  rewrite !(regions_fallback_lookup _ _ _ H') by done.
  destruct (existsb truthy _) eqn:Hany.
  - apply bind_Ok in H as (s & Hs & _). unfold py_join in Hs.
    apply bind_Ok in Hs as (l & Hl & _).
    apply py_join_items_inv in Hl. rewrite Forall_forall in Hl.
    split; intros v Hv Ht; apply Hl, list_elem_of_filter;
      (split; [done|]); rewrite !elem_of_cons;
      [left | right; left]; symmetry; by apply dict_get_lookup.
  - simpl in Hany. apply orb_false_iff in Hany as [Hp [Hc _]%orb_false_iff].
    split; intros v Hv Ht.
    + rewrite (dict_get_lookup _ _ _ _ Hv) in Hp. congruence.
    + rewrite (dict_get_lookup _ _ _ _ Hv) in Hc. congruence.
Qed.

Lemma merge_str_or_falsy (base inc : pydict) (k : string) :
  str_or_falsy (base !! k) →
  (∀ v, inc !! k = Some v → ∃ s, v = VStr s) →
  str_or_falsy (_merge_unified base inc !! k).
Proof.
  intros Hb Hi v. rewrite merge_unified_lookup.
  destruct (inc !! k) as [x|]; [|apply Hb].
  destruct (writable base k); [|apply Hb].
  intros [= <-] _. by apply Hi.
Qed.

(** What a turn of the loop can do to the accumulator: nothing, or one merge
    of what the mapper of the source made of a 200 answer. *)
Lemma query_source_inv (w : World) (src : RemoteSource) (u u' : pydict) :
  query_source w src u = Ok u' →
  u' = u
  ∨ ∃ j partial,
      requests_get w (url src) = Response 200 (Ok j)
      ∧ mapper src j = Ok partial
      ∧ u' = _merge_unified u partial.
Proof.
  unfold query_source. intros H.
  destruct (requests_get w (url src)) as [|status json]; [discriminate|].
  destruct (Z.eqb_spec status 200) as [->|Hne]; simpl in H.
  - right. apply bind_Ok in H as (j & -> & H).
    apply bind_Ok in H as (partial & Hp & [= <-]). eauto.
  - left. by injection H.
Qed.

(** Induction principle of the loop: a property of the accumulator that every
    merge of an answered source preserves holds when the loop ends. *)
Lemma remote_loop_ind (w : World) (P : pydict → Prop) (Q : pydict → Prop)
  (sources : list RemoteSource) :
  (∀ u partial, P u → Q partial → P (_merge_unified u partial)) →
  (∀ src j partial,
     src ∈ sources →
     requests_get w (url src) = Response 200 (Ok j) →
     mapper src j = Ok partial → Q partial) →
  ∀ max_sources tried u, P u → P (remote_loop w max_sources tried u sources).
Proof.
  intros Hmerge. induction sources as [|src rest IH]; intros HQ m t u Hu; simpl.
  { done. }
  destruct (m <=? t); [done|].
  apply IH.
  - intros s j p Hs. apply HQ. by right.
  - destruct (query_source w src u) as [u'|e] eqn:E; simpl; [|done].
    apply query_source_inv in E as [->|(j & p & Hj & Hp & ->)]; [done|].
    apply Hmerge; [done|]. eapply HQ; [by left|done..].
Qed.

Lemma template_ip_lookup (ip k : string) :
  k ∈ schema → is_Some ((<["ip" := VStr ip]> _unified_template) !! k).
Proof.
  intros Hk. destruct (decide (k = "ip")) as [->|Hne].
  - rewrite lookup_insert_eq. eauto.
  - rewrite lookup_insert_ne, template_lookup by done. eauto.
Qed.

(** Every key of the schema is in the record of the remote pass. *)
Lemma get_ip_info_remote_keys (w : World) (ip lang : string) (m : Z) (r : pydict) :
  get_ip_info_remote w ip m lang = Ok r → ∀ k, k ∈ schema → is_Some (r !! k).
Proof.
  unfold get_ip_info_remote. intros H k Hk.
  eapply regions_fallback_is_Some; [exact H|].
  apply (remote_loop_ind w (fun u => is_Some (u !! k)) (fun _ => True)).
  - intros u p Hu _. by apply merge_unified_is_Some.
  - done.
  - by apply template_ip_lookup.
Qed.

Lemma get_ip_info_remote_ip (w : World) (ip lang : string) (m : Z) (r : pydict) :
  ip ≠ "" → get_ip_info_remote w ip m lang = Ok r → r !! "ip" = Some (VStr ip).
Proof.
  unfold get_ip_info_remote. intros Hip H.
  rewrite (regions_fallback_lookup _ _ "ip" H) by done.
  apply (remote_loop_ind w (fun u => u !! "ip" = Some (VStr ip)) (fun _ => True)).
  - intros u p Hu _. apply merge_unified_keeps; [done|]. by destruct ip.
  - done.
  - apply lookup_insert_eq.
Qed.

Lemma remote_or_template_keys (w : World) (ip k : string) :
  k ∈ schema → is_Some (remote_or_template w ip !! k).
Proof.
  unfold remote_or_template. intros Hk.
  destruct (get_ip_info_remote w ip 3 "zh-CN") as [r|e] eqn:E; cbn [try_except].
  - by eapply get_ip_info_remote_keys.
  - by apply template_ip_lookup.
Qed.

Lemma remote_or_template_ip (w : World) (ip : string) :
  ip ≠ "" → remote_or_template w ip !! "ip" = Some (VStr ip).
Proof.
  unfold remote_or_template. intros Hip.
  destruct (get_ip_info_remote w ip 3 "zh-CN") as [r|e] eqn:E; cbn [try_except].
  - by eapply get_ip_info_remote_ip.
  - apply lookup_insert_eq.
Qed.

Lemma template_str_or_falsy (ip k : string) :
  str_or_falsy ((<["ip" := VStr ip]> _unified_template) !! k).
Proof.
  intros v Hv _. destruct (decide (k = "ip")) as [->|Hne].
  - rewrite lookup_insert_eq in Hv. injection Hv as <-. eauto.
  - rewrite lookup_insert_ne in Hv by done.
    apply template_lookup_inv in Hv as [-> _]. eauto.
Qed.

Lemma remote_or_template_shape (w : World) (ip : string) :
  truthy (dict_get (remote_or_template w ip) "regions" VNone) = true
  ∨ (str_or_falsy (remote_or_template w ip !! "province")
     ∧ str_or_falsy (remote_or_template w ip !! "city")).
Proof.
  unfold remote_or_template.
  destruct (get_ip_info_remote w ip 3 "zh-CN") as [r|e] eqn:E; cbn [try_except].
  - by eapply regions_fallback_inv.
  - right. split; apply template_str_or_falsy.
Qed.

(** The local record, or the empty dictionary when the local pipeline raised,
    is a record built by [build_uniform_result] or is empty. *)
Lemma local_or_empty_inv (w : World) (ip : string) :
  try_except (get_ip_info_local w ip) ∅ = ∅
  ∨ ∃ info, get_ip_info_local w ip = Ok (build_uniform_result info)
            ∧ try_except (get_ip_info_local w ip) ∅ = build_uniform_result info.
Proof.
  unfold get_ip_info_local.
  destruct (get_maxmind w ip) as [info|e]; cbn [mbind result_bind try_except];
    [|by left].
  right. eexists. split; reflexivity.
Qed.

Lemma local_or_empty_strings (w : World) (ip k : string) (v : pyval) :
  k = "province" ∨ k = "city" ∨ k = "regions" →
  try_except (get_ip_info_local w ip) ∅ !! k = Some v → ∃ s, v = VStr s.
Proof.
  intros Hk. destruct (local_or_empty_inv w ip) as [->|(info & _ & ->)].
  { by rewrite lookup_empty. }
  destruct Hk as [-> | [-> | ->]].
  - rewrite build_uniform_result_province. intros [= <-].
    destruct (info_province info); by eexists.
  - rewrite build_uniform_result_city. intros [= <-].
    destruct (info_city info); by eexists.
  - destruct (build_uniform_result_regions info) as [s ->]. intros [= <-]. eauto.
Qed.

(** [get_ip_info] always returns a record. *)
Lemma get_ip_info_total (w : World) (ip : string) :
  ∃ r, get_ip_info w ip = Ok r.
Proof.
  unfold get_ip_info. fold (remote_or_template w ip).
  set (local := try_except (get_ip_info_local w ip) ∅).
  destruct (remote_or_template_shape w ip) as [Hr|[Hp Hc]].
  - exists (_merge_unified (remote_or_template w ip) local).
    unfold regions_fallback.
    unfold dict_get in Hr |- *.
    destruct (remote_or_template w ip !! "regions") as [v|] eqn:E; [|done].
    simpl in Hr.
    rewrite (merge_unified_keeps _ local _ _ E (truthy_not_in_empties _ Hr)).
    simpl. by rewrite Hr.
  - apply regions_fallback_total; apply merge_str_or_falsy; try done;
      intros v; apply local_or_empty_strings; tauto.
Qed.

Lemma get_cn_update_ip (cn_info : CnRecord) (info : Info) :
  info_ip (get_cn_update cn_info info) = info_ip info.
Proof.
  unfold get_cn_update. cbv zeta.
  destruct info as [ip [a|] addr loc c rc rs [p|] [y|] t];
  destruct (opt_truthy (cn_isp cn_info)), (opt_truthy (cn_net cn_info)),
    (de_duplicate _) as [|d0 ds]; simpl;
    repeat match goal with
      | |- context [if ?b then _ else _] =>
          lazymatch type of b with bool => destruct b; simpl end
      end;
    reflexivity.
Qed.

Lemma get_maxmind_ip (w : World) (ip : string) (info : Info) :
  get_maxmind w ip = Ok info → info_ip info = ip.
Proof.
  intros H.
  apply get_maxmind_inv in H as (asn_info & ci & prefix & addr & _ & _ & _ & ->).
  destruct ci; [rewrite get_maxmind_geo_ip|]; by destruct asn_info.
Qed.

Lemma get_ip_info_local_ip (w : World) (ip : string) (l : pydict) :
  get_ip_info_local w ip = Ok l → l !! "ip" = Some (VStr ip).
Proof.
  unfold get_ip_info_local. intros H.
  apply bind_Ok in H as (info & Hinfo & [= <-]).
  rewrite build_uniform_result_ip. do 2 f_equal.
  pose proof (get_maxmind_ip _ _ _ Hinfo) as Hip.
  destruct (_ && _); [|done].
  destruct (get_cn w ip info) as [info'|e] eqn:E; cbn [try_except]; [|done].
  apply get_cn_inv in E as (cn & p & _ & E).
  destruct cn as [cn|]; [|by subst].
  destruct E as (addr & _ & ->). by rewrite get_cn_update_ip.
Qed.

Lemma local_or_empty_ip (w : World) (ip : string) (v : pyval) :
  try_except (get_ip_info_local w ip) ∅ !! "ip" = Some v → v = VStr ip.
Proof.
  destruct (get_ip_info_local w ip) as [l|e] eqn:E; cbn [try_except].
  - rewrite (get_ip_info_local_ip _ _ _ E). by intros [= <-].
  - by rewrite lookup_empty.
Qed.

Lemma local_or_empty_no_none (w : World) (ip k : string) :
  try_except (get_ip_info_local w ip) ∅ !! k ≠ Some VNone.
Proof.
  destruct (local_or_empty_inv w ip) as [->|(info & _ & ->)].
  - by rewrite lookup_empty.
  - apply build_uniform_result_no_none.
Qed.


(** Every key of the schema is in the record that [get_ip_info] returns. *)
Lemma get_ip_info_keys (w : World) (ip : string) (r : pydict) :
  get_ip_info w ip = Ok r → ∀ k, k ∈ schema → is_Some (r !! k).
Proof.
  unfold get_ip_info. fold (remote_or_template w ip). intros H k Hk.
  eapply regions_fallback_is_Some; [exact H|].
  by apply merge_unified_is_Some, remote_or_template_keys.
Qed.

(** C9. For a non-empty [ip], the record of the remote pass, when there is
    one, has the input in its [ip] field, and [get_ip_info] returns a record
    whose [ip] field is the input, whatever the remote services answered. *)
Theorem ip_field_is_input (w : World) (ip : string) :
  ip ≠ "" →
  (∀ max_sources lang r,
     get_ip_info_remote w ip max_sources lang = Ok r → r !! "ip" = Some (VStr ip))
  ∧ ∃ r, get_ip_info w ip = Ok r ∧ r !! "ip" = Some (VStr ip).
Proof.
  intros Hip. split.
  - intros m lang r. by apply get_ip_info_remote_ip.
  - destruct (get_ip_info_total w ip) as [r Hr]. exists r. split; [done|].
    unfold get_ip_info in Hr. fold (remote_or_template w ip) in Hr.
    rewrite (regions_fallback_lookup _ _ "ip" Hr) by done.
    apply merge_unified_keeps; [by apply remote_or_template_ip|].
    by destruct ip.
Qed.

Lemma ip_field_is_input_witness :
  "1.2.3.4" ≠ ""
  ∧ ∃ r, get_ip_info world_other_ip "1.2.3.4" = Ok r
         ∧ r !! "ip" = Some (VStr "1.2.3.4").
Proof.
  split; [discriminate|].
  apply (ip_field_is_input world_other_ip "1.2.3.4"). discriminate.
Defined.

(** In [world_other_ip] the service that answers reports another address; its
    time zone is taken, its address is not. *)
Example other_ip_is_ignored :
  field "ip" (_from_ip_sb (py_repr world_other_ip)
                (VDict (<["ip" := VStr "9.9.9.9"]>
                          (<["timezone" := VStr "Asia/Shanghai"]> ∅))))
  = Some (VStr "9.9.9.9")
  ∧ field "timezone" (get_ip_info world_other_ip "1.2.3.4")
    = Some (VStr "Asia/Shanghai")
  ∧ field "ip" (get_ip_info world_other_ip "1.2.3.4") = Some (VStr "1.2.3.4").
Proof. split_and!; vm_compute; reflexivity. Qed.

Lemma template_ip_writable (ip k : string) :
  k ≠ "ip" → writable (<["ip" := VStr ip]> _unified_template) k = true.
Proof.
  intros Hk. unfold writable. rewrite lookup_insert_ne by done.
  destruct (_unified_template !! k) as [v|] eqn:E; [|done].
  by apply template_lookup_inv in E as [-> _].
Qed.

Lemma template_ip_no_none (ip k : string) :
  (<["ip" := VStr ip]> _unified_template) !! k ≠ Some VNone.
Proof.
  destruct (decide (k = "ip")) as [->|Hne].
  - by rewrite lookup_insert_eq.
  - rewrite lookup_insert_ne by done. intros H.
    by apply template_lookup_inv in H as [? _].
Qed.

(** C3. When the remote pass raises, [get_ip_info] raises nothing: it
    returns the result of merging the local record (the empty dictionary if the
    local pipeline raised too) into the all-empty template with only [ip] set.
    The record has every key of the schema, holds no [None], and carries every
    field of the local record (its [regions] whenever that is not empty). *)
Theorem remote_failure_is_contained (w : World) (ip : string) (e : exc) :
  get_ip_info_remote w ip 3 "zh-CN" = Raise e →
  let template := <["ip" := VStr ip]> _unified_template in
  let local := try_except (get_ip_info_local w ip) ∅ in
  ∃ r, get_ip_info w ip = Ok r
       ∧ regions_fallback (_merge_unified template local) = Ok r
       ∧ (∀ k, k ∈ schema → is_Some (r !! k))
       ∧ (∀ k, r !! k ≠ Some VNone)
       ∧ (∀ k v, local !! k = Some v →
                 k ≠ "regions" ∨ truthy v = true → r !! k = Some v).
Proof.
  intros Hremote template local.
  destruct (get_ip_info_total w ip) as [r Hr]. exists r.
  assert (Hr' : regions_fallback (_merge_unified template local) = Ok r).
  { unfold get_ip_info in Hr. by rewrite Hremote in Hr. }
  assert (Hmerged : ∀ k v, local !! k = Some v →
                           _merge_unified template local !! k = Some v).
  { intros k v Hk. rewrite merge_unified_lookup, Hk.
    destruct (decide (k = "ip")) as [->|Hne].
    - apply local_or_empty_ip in Hk as ->.
      unfold template. destruct (writable _ "ip"); [done|apply lookup_insert_eq].
    - unfold template. by rewrite template_ip_writable. }
  split_and!; [done|done|by apply get_ip_info_keys with w ip| |].
  - intros k. destruct (decide (k = "regions")) as [->|Hne].
    + destruct (regions_fallback_regions _ _ Hr') as [[_ ->]|[s ->]]; [|done].
      rewrite merge_unified_lookup.
      destruct (local !! "regions") eqn:E;
        [destruct (writable template "regions")|];
        first [apply template_ip_no_none
              | rewrite <- E; apply local_or_empty_no_none].
    + rewrite (regions_fallback_lookup _ _ _ Hr' Hne), merge_unified_lookup.
      destruct (local !! k) eqn:E; [destruct (writable template k)|];
        first [apply template_ip_no_none
              | rewrite <- E; apply local_or_empty_no_none].
  - intros k v Hk [Hne|Hv].
    + rewrite (regions_fallback_lookup _ _ _ Hr' Hne). by apply Hmerged.
    + destruct (decide (k = "regions")) as [->|Hne];
        [|rewrite (regions_fallback_lookup _ _ _ Hr' Hne); by apply Hmerged].
      apply Hmerged in Hk.
      unfold regions_fallback in Hr'.
      rewrite (dict_get_lookup _ _ _ _ Hk), Hv in Hr'. by injection Hr' as <-.
Qed.

Lemma remote_failure_is_contained_witness :
  get_ip_info_remote world_number "1.2.3.4" 3 "zh-CN" = Raise TypeError
  ∧ ∃ r, get_ip_info world_number "1.2.3.4" = Ok r
         ∧ ∀ k, k ∈ schema → is_Some (r !! k).
Proof.
  assert (H : get_ip_info_remote world_number "1.2.3.4" 3 "zh-CN" = Raise TypeError)
    by (vm_compute; reflexivity).
  split; [exact H|].
  destruct (remote_failure_is_contained world_number "1.2.3.4" TypeError H)
    as (r & Hr & _ & Hkeys & _).
  exists r. split; [exact Hr | exact Hkeys].
Defined.

(** In [world_number] the record is the local one, with empty [timezone] and
    [isp]. *)
Example remote_failure_local_data :
  field "province" (get_ip_info world_number "1.2.3.4") = Some (VStr "北京")
  ∧ field "city" (get_ip_info world_number "1.2.3.4") = Some (VStr "海淀")
  ∧ field "regions" (get_ip_info world_number "1.2.3.4") = Some (VStr "北京,海淀")
  ∧ field "addr" (get_ip_info world_number "1.2.3.4") = Some (VStr "1.2.0.0/16")
  ∧ field "timezone" (get_ip_info world_number "1.2.3.4") = Some (VStr "").
Proof. split_and!; vm_compute; reflexivity. Qed.




(** C1 (the code departs from the claim). When the one remote service that
    answers sends a JSON [null] for the time zone, the record that
    [get_ip_info] returns holds [None] under [timezone]; its [as_number], taken
    from the ASN database, is an integer and not a string. *)
Theorem null_reaches_the_record :
  field "timezone" (get_ip_info world_null "1.2.3.4") = Some VNone
  ∧ field "as_number" (get_ip_info world_null "1.2.3.4") = Some (VInt 4134).
Proof. split; vm_compute; reflexivity. Qed.

(** * Further properties *)

(** ** Algebra of the merge policy *)

Lemma merge_unified_left_id (inc : pydict) : _merge_unified ∅ inc = inc.
Proof.
  apply map_eq. intros k. rewrite merge_unified_lookup.
  unfold writable. rewrite lookup_empty. by destruct (inc !! k).
Qed.

(** X1. The empty record is neutral for the merge on both sides: merging it
    into an accumulator changes nothing, and merging a record into the empty
    accumulator gives that record. *)
Theorem merge_unified_identity (base : pydict) :
  _merge_unified base ∅ = base ∧ _merge_unified ∅ base = base.
Proof. split; [apply merge_unified_empty | apply merge_unified_left_id]. Qed.

(** X2. Merging is associative: merging [b] then [c] into [a] gives the same
    record as merging into [a] the result of merging [c] into [b]. *)
Theorem merge_unified_assoc (a b c : pydict) :
  _merge_unified (_merge_unified a b) c = _merge_unified a (_merge_unified b c).
Proof.
  apply map_eq. intros k.
  rewrite !merge_unified_lookup. unfold writable.
  rewrite !merge_unified_lookup. unfold writable.
  destruct (a !! k) as [va|], (b !! k) as [vb|], (c !! k) as [vc|]; try done;
    try destruct (in_empties va) eqn:Ea; try destruct (in_empties vb) eqn:Eb;
    rewrite ?Ea, ?Eb; done.
Qed.

(** X3. Merging the same record a second time changes nothing. *)
Theorem merge_unified_idempotent (base inc : pydict) :
  _merge_unified (_merge_unified base inc) inc = _merge_unified base inc.
Proof.
  apply map_eq. intros k.
  rewrite !merge_unified_lookup. unfold writable.
  rewrite !merge_unified_lookup. unfold writable.
  destruct (base !! k) as [vb|], (inc !! k) as [vi|]; try done;
    try destruct (in_empties vb) eqn:Eb; try destruct (in_empties vi) eqn:Ei;
    rewrite ?Eb, ?Ei; done.
Qed.

(** X4. The keys of a merge are those of the accumulator and those of the
    merged record: no key is dropped and none is invented. *)
Theorem merge_unified_dom (base inc : pydict) :
  dom (_merge_unified base inc) = dom base ∪ dom inc.
Proof.
  apply set_eq. intros k.
  rewrite elem_of_union, !elem_of_dom, merge_unified_lookup.
  destruct (inc !! k) as [vi|] eqn:Ei; [destruct (writable base k) eqn:W|].
  - split; [intros _; right; eauto | eauto].
  - split; [by left|]. intros [H|_]; [done|].
    unfold writable in W. destruct (base !! k); [eauto | discriminate].
  - split; [by left|]. intros [H|[x Hx]]; [done | discriminate].
Qed.

(** ** The loop over the remote sources *)

(** Only the sources met before [max_sources] attempts take part. *)
Lemma remote_loop_take (w : World) (max_sources tried : Z) (u : pydict)
  (sources : list RemoteSource) :
  remote_loop w max_sources tried u sources
  = remote_loop w max_sources tried u
      (take (Z.to_nat (max_sources - tried)) sources).
Proof.
  revert tried u. induction sources as [|src rest IH]; intros tried u.
  { by rewrite take_nil. }
  destruct (Z.leb_spec max_sources tried) as [Hle|Hlt].
  - replace (Z.to_nat (max_sources - tried)) with 0%nat by lia.
    cbn [take remote_loop].
    by destruct (Z.leb_spec max_sources tried); [|lia].
  - replace (Z.to_nat (max_sources - tried))
      with (S (Z.to_nat (max_sources - (tried + 1)))) by lia.
    cbn [take remote_loop].
    destruct (Z.leb_spec max_sources tried); [lia|]. apply IH.
Qed.

Lemma query_source_ext (w1 w2 : World) (src : RemoteSource) (u : pydict) :
  requests_get w1 (url src) = requests_get w2 (url src) →
  query_source w1 src u = query_source w2 src u.
Proof. unfold query_source. by intros ->. Qed.

Lemma remote_loop_ext (w1 w2 : World) (max_sources tried : Z) (u : pydict)
  (sources : list RemoteSource) :
  (∀ src, src ∈ sources → requests_get w1 (url src) = requests_get w2 (url src)) →
  remote_loop w1 max_sources tried u sources
  = remote_loop w2 max_sources tried u sources.
Proof.
  revert tried u. induction sources as [|src rest IH]; intros tried u H; [done|].
  cbn [remote_loop]. destruct (max_sources <=? tried); [done|].
  rewrite (query_source_ext w1 w2) by (apply H; by left).
  apply IH. intros s Hs. apply H. by right.
Qed.

Lemma template_ip_lookup_ne (ip k : string) :
  k ∈ schema → k ≠ "ip" →
  (<["ip" := VStr ip]> _unified_template) !! k = Some (VStr "").
Proof. intros Hk Hne. by rewrite lookup_insert_ne, template_lookup. Qed.

Lemma in_schema_regions : "regions" ∈ schema.
Proof. unfold schema. rewrite !elem_of_cons. tauto. Qed.

Lemma in_schema_province : "province" ∈ schema.
Proof. unfold schema. rewrite !elem_of_cons. tauto. Qed.

Lemma in_schema_city : "city" ∈ schema.
Proof. unfold schema. rewrite !elem_of_cons. tauto. Qed.

(** The fallback leaves the untouched template as it is. *)
Lemma regions_fallback_template (ip : string) :
  regions_fallback (<["ip" := VStr ip]> _unified_template)
  = Ok (<["ip" := VStr ip]> _unified_template).
Proof.
  unfold regions_fallback.
  rewrite (dict_get_lookup _ "regions" VNone (VStr ""))
    by (by apply template_ip_lookup_ne; [apply in_schema_regions|]).
  rewrite (dict_get_lookup _ "province" (VStr "") (VStr ""))
    by (by apply template_ip_lookup_ne; [apply in_schema_province|]).
  rewrite (dict_get_lookup _ "city" (VStr "") (VStr ""))
    by (by apply template_ip_lookup_ne; [apply in_schema_city|]).
  cbn [truthy Str.is_empty negb existsb orb]. reflexivity.
Qed.

(** X5. The remote pass looks at no more than [max_sources] sources: its
    result is the same in two worlds that shuffle alike and answer alike for
    the first [max_sources] sources of the shuffled order, whatever the other
    sources would answer. *)
Theorem remote_pass_is_bounded (w1 w2 : World) (ip lang : string) (max_sources : Z) :
  random_shuffle w1 (_sources_for_ip (py_repr w1) ip lang)
  = random_shuffle w2 (_sources_for_ip (py_repr w2) ip lang) →
  (∀ src, src ∈ take (Z.to_nat max_sources)
                    (random_shuffle w1 (_sources_for_ip (py_repr w1) ip lang)) →
          requests_get w1 (url src) = requests_get w2 (url src)) →
  get_ip_info_remote w1 ip max_sources lang
  = get_ip_info_remote w2 ip max_sources lang.
Proof.
  intros Hshuffle Hsame. unfold get_ip_info_remote.
  rewrite (remote_loop_take w1), (remote_loop_take w2), <- Hshuffle.
  rewrite Z.sub_0_r.
  by rewrite (remote_loop_ext w1 w2 _ _ _ _ Hsame).
Qed.

Lemma remote_pass_is_bounded_witness :
  requests_get world_fourth "http://ip-api.com/json/1.2.3.4?lang=zh-CN"
  ≠ requests_get world_cn "http://ip-api.com/json/1.2.3.4?lang=zh-CN"
  ∧ get_ip_info_remote world_fourth "1.2.3.4" 3 "zh-CN"
    = get_ip_info_remote world_cn "1.2.3.4" 3 "zh-CN".
Proof.
  split; [vm_compute; discriminate|].
  apply remote_pass_is_bounded; [reflexivity|].
  intros src Hsrc.
  cbv [random_shuffle world_fourth with_remote _sources_for_ip take
       Z.to_nat Pos.to_nat Pos.iter_op Nat.add] in Hsrc.
  rewrite !elem_of_cons, elem_of_nil in Hsrc.
  destruct Hsrc as [->|[->|[->|[]]]]; vm_compute; reflexivity.
Defined.

(** X6. When no source among those attempted gives a partial record, the
    remote pass returns the all-empty template with only [ip] set. *)
Theorem remote_pass_all_failed (w : World) (ip lang : string) (max_sources : Z) :
  (∀ src, src ∈ take (Z.to_nat max_sources)
                    (random_shuffle w (_sources_for_ip (py_repr w) ip lang)) →
          unanswered w src) →
  get_ip_info_remote w ip max_sources lang
  = Ok (<["ip" := VStr ip]> _unified_template).
Proof.
  intros Hfail. unfold get_ip_info_remote.
  rewrite remote_loop_take, Z.sub_0_r.
  assert (Hloop :
    remote_loop w max_sources 0 (<["ip" := VStr ip]> _unified_template)
      (take (Z.to_nat max_sources)
         (random_shuffle w (_sources_for_ip (py_repr w) ip lang)))
    = <["ip" := VStr ip]> _unified_template).
  { apply (remote_loop_ind w
             (fun u => u = <["ip" := VStr ip]> _unified_template)
             (fun _ => False)).
    - intros u p _ [].
    - intros src j p Hsrc Hj Hp. by apply (Hfail src Hsrc j p).
    - reflexivity. }
  rewrite Hloop. apply regions_fallback_template.
Qed.

Lemma remote_pass_all_failed_witness :
  get_ip_info_remote world_cn "1.2.3.4" 3 "zh-CN"
  = Ok (<["ip" := VStr "1.2.3.4"]> _unified_template).
Proof.
  apply remote_pass_all_failed.
  intros src _ j partial Hj. discriminate Hj.
Defined.

Lemma remote_loop_keeps (w : World) (max_sources tried : Z) (u : pydict)
  (sources : list RemoteSource) (k : string) (v : pyval) :
  u !! k = Some v → in_empties v = false →
  remote_loop w max_sources tried u sources !! k = Some v.
Proof.
  intros Hk Hv.
  apply (remote_loop_ind w (fun u => u !! k = Some v) (fun _ => True)); try done.
  intros u' p Hu _. by apply merge_unified_keeps.
Qed.

(** X7. Among the sources that answer, the first one attempted wins: a
    non-empty value that the first source of the shuffled order gives for a
    field other than [ip] and [regions] is the value of the remote record,
    whatever the later sources answer. *)
Theorem first_answer_wins (w : World) (ip lang k : string) (max_sources : Z)
  (src : RemoteSource) (rest : list RemoteSource) (j v : pyval)
  (partial r : pydict) :
  random_shuffle w (_sources_for_ip (py_repr w) ip lang) = src :: rest →
  0 < max_sources →
  requests_get w (url src) = Response 200 (Ok j) →
  mapper src j = Ok partial →
  partial !! k = Some v → in_empties v = false →
  k ≠ "ip" → k ≠ "regions" →
  get_ip_info_remote w ip max_sources lang = Ok r →
  r !! k = Some v.
Proof.
  intros Hshuffle Hmax Hj Hp Hk Hv Hip Hreg Hr.
  unfold get_ip_info_remote in Hr. rewrite Hshuffle in Hr.
  rewrite (regions_fallback_lookup _ _ k Hr Hreg).
  cbn [remote_loop]. destruct (Z.leb_spec max_sources 0); [lia|].
  apply remote_loop_keeps; [|done].
  unfold query_source. rewrite Hj. cbn [Z.eqb Pos.eqb negb mbind result_bind].
  rewrite Hp. cbn [try_except mbind result_bind].
  rewrite merge_unified_lookup, Hk. by rewrite template_ip_writable.
Qed.

Lemma first_answer_wins_witness :
  ∃ r, get_ip_info_remote world_other_ip "1.2.3.4" 3 "zh-CN" = Ok r
       ∧ r !! "timezone" = Some (VStr "Asia/Shanghai").
Proof.
  set (j := VDict (<["ip" := VStr "9.9.9.9"]>
                     (<["timezone" := VStr "Asia/Shanghai"]> ∅))).
  assert (Hok : is_ok (get_ip_info_remote world_other_ip "1.2.3.4" 3 "zh-CN") = true)
    by (vm_compute; reflexivity).
  assert (Hfield : field "timezone" (_from_ip_sb (py_repr world_other_ip) j)
                   = Some (VStr "Asia/Shanghai")) by (vm_compute; reflexivity).
  destruct (get_ip_info_remote world_other_ip "1.2.3.4" 3 "zh-CN") as [r|e] eqn:E;
    [|discriminate Hok].
  destruct (_from_ip_sb (py_repr world_other_ip) j) as [p|e] eqn:Ep;
    [|discriminate Hfield].
  exists r. split; [reflexivity|].
  apply (first_answer_wins world_other_ip "1.2.3.4" "zh-CN" "timezone" 3
           {| url := "https://api.ip.sb/geoip/1.2.3.4";
              mapper := _from_ip_sb (py_repr world_other_ip) |}
           (tail (_sources_for_ip (py_repr world_other_ip) "1.2.3.4" "zh-CN"))
           j (VStr "Asia/Shanghai") p r);
    [reflexivity | lia | reflexivity | exact Ep | exact Hfield | reflexivity
    | discriminate | discriminate | exact E].
Defined.

(** X8. The remote record wins and the local record fills the gaps: in the
    record that [get_ip_info] returns, a field other than [regions] that the
    remote pass left non-empty keeps its remote value, a field the remote pass
    left empty takes the value of the local record when it has one, and a field
    the local record does not have is that of the remote pass. *)
Theorem remote_wins_local_fills (w : World) (ip k : string) :
  k ≠ "regions" →
  let remote := remote_or_template w ip in
  let local := try_except (get_ip_info_local w ip) ∅ in
  ∃ r, get_ip_info w ip = Ok r
       ∧ (∀ v, remote !! k = Some v → in_empties v = false → r !! k = Some v)
       ∧ (∀ v, writable remote k = true → local !! k = Some v → r !! k = Some v)
       ∧ (local !! k = None → r !! k = remote !! k).
Proof.
  intros Hk remote local.
  destruct (get_ip_info_total w ip) as [r Hr]. exists r. split; [done|].
  unfold get_ip_info in Hr. fold (remote_or_template w ip) in Hr.
  fold remote local in Hr.
  rewrite (regions_fallback_lookup _ _ k Hr Hk).
  split_and!.
  - intros v Hv He. by apply merge_unified_keeps.
  - intros v Hw Hl. by rewrite merge_unified_lookup, Hl, Hw.
  - apply merge_unified_absent.
Qed.

Lemma remote_wins_local_fills_witness :
  ∃ r, get_ip_info world_other_ip "1.2.3.4" = Ok r
       ∧ r !! "province" = Some (VStr "北京").
Proof.
  destruct (remote_wins_local_fills world_other_ip "1.2.3.4" "province")
    as (r & Hr & _ & Hfill & _); [discriminate|].
  exists r. split; [exact Hr|].
  apply Hfill; vm_compute; reflexivity.
Defined.

(** The string that a part gives to the join, if it is not filtered out. *)
Lemma truthy_str_inv (p : pyval) (s : string) :
  p = VStr s → truthy p = negb (Str.is_empty s).
Proof. by intros ->. Qed.

Lemma py_join_items_filter (parts : list pyval) (l : list string) :
  py_join_items (filter (fun p => truthy p = true) parts) = Ok l →
  l = omap (fun p => match p with
                     | VStr s => if Str.is_empty s then None else Some s
                     | _ => None
                     end) parts.
Proof.
  revert l. induction parts as [|p parts IH]; intros l H.
  { by injection H as <-. }
  destruct (truthy p) eqn:T.
  - rewrite filter_cons_True in H by done.
    destruct p as [| | | |s| |]; try discriminate H.
    cbn [py_join_items] in H. apply bind_Ok in H as (l' & Hl' & [= <-]).
    cbn [omap list_omap]. cbn [truthy] in T.
    apply negb_true_iff in T. rewrite T. f_equal. by apply IH.
  - rewrite filter_cons_False in H by congruence.
    cbn [omap list_omap].
    destruct p as [| | | |s| |]; try by apply IH.
    cbn [truthy] in T. apply negb_false_iff in T. rewrite T. by apply IH.
Qed.

Lemma existsb_truthy_false (parts : list pyval) :
  existsb truthy parts = false →
  omap (fun p => match p with
                 | VStr s => if Str.is_empty s then None else Some s
                 | _ => None
                 end) parts = [].
Proof.
  induction parts as [|p parts IH]; [done|].
  cbn [existsb]. intros [T H]%orb_false_iff. cbn [omap list_omap].
  rewrite (IH H).
  destruct p as [| | | |s| |]; try done.
  cbn [truthy] in T. apply negb_false_iff in T. by rewrite T.
Qed.

Lemma joined_regions_parts (u : pydict) :
  joined_regions u
  = Str.join ","
      (omap (fun p => match p with
                      | VStr s => if Str.is_empty s then None else Some s
                      | _ => None
                      end)
            [dict_get u "province" (VStr ""); dict_get u "city" (VStr "")]).
Proof.
  unfold joined_regions, nonempty_str, dict_get. cbn [omap list_omap].
  by destruct (u !! "province") as [[]|], (u !! "city") as [[]|].
Qed.

(** What the fallback returns: the record itself when [regions] is set, else
    the record with [regions] joined from [province] and [city]. *)
Lemma regions_fallback_spec (u u' : pydict) :
  regions_fallback u = Ok u' →
  u' = if truthy (dict_get u "regions" VNone) then u
       else <["regions" := VStr (joined_regions u)]> u.
Proof.
  unfold regions_fallback. rewrite joined_regions_parts.
  destruct (truthy (dict_get u "regions" VNone)); [by intros [= <-]|].
  destruct (existsb truthy _) eqn:Hany.
  - intros H. apply bind_Ok in H as (s & Hs & [= <-]).
    unfold py_join in Hs. apply bind_Ok in Hs as (l & Hl & [= <-]).
    by rewrite (py_join_items_filter _ _ Hl).
  - intros [= <-]. by rewrite (existsb_truthy_false _ Hany).
Qed.

(** X9. [get_ip_info] returns the merge of the local record into the remote
    one, with [regions] completed: when the merged [regions] is empty it
    becomes the non-empty ones of the merged [province] and [city] joined by a
    comma (the empty string when both are empty). *)
Theorem regions_are_completed (w : World) (ip : string) :
  let merged := _merge_unified (remote_or_template w ip)
                  (try_except (get_ip_info_local w ip) ∅) in
  ∃ r, get_ip_info w ip = Ok r
       ∧ (∀ k, k ≠ "regions" → r !! k = merged !! k)
       ∧ r !! "regions"
         = if truthy (dict_get merged "regions" VNone) then merged !! "regions"
           else Some (VStr (joined_regions merged)).
Proof.
  intros merged.
  destruct (get_ip_info_total w ip) as [r Hr]. exists r. split; [done|].
  unfold get_ip_info in Hr. fold (remote_or_template w ip) in Hr.
  fold merged in Hr. split.
  - intros k Hk. by apply regions_fallback_lookup.
  - rewrite (regions_fallback_spec _ _ Hr).
    destruct (truthy (dict_get merged "regions" VNone)); [done|].
    apply lookup_insert_eq.
Qed.

Lemma joined_regions_insert (u : pydict) (v : pyval) :
  joined_regions (<["regions" := v]> u) = joined_regions u.
Proof.
  unfold joined_regions, nonempty_str. cbn [omap list_omap].
  by rewrite !lookup_insert_ne.
Qed.

(** Running the fallback on its own result changes nothing. *)
Lemma regions_fallback_idem (u u' : pydict) :
  regions_fallback u = Ok u' → regions_fallback u' = Ok u'.
Proof.
  intros H. pose proof (regions_fallback_spec _ _ H) as Hu'.
  destruct (truthy (dict_get u "regions" VNone)) eqn:Hr; [by subst|].
  destruct (regions_fallback_inv _ _ H) as [Ht|[Hp Hc]].
  { unfold regions_fallback. by rewrite Ht. }
  destruct (regions_fallback_total u' Hp Hc) as [u'' H''].
  rewrite H''. f_equal.
  rewrite (regions_fallback_spec _ _ H'').
  destruct (truthy (dict_get u' "regions" VNone)); [done|].
  rewrite Hu', joined_regions_insert. apply insert_insert_eq.
Qed.

(** X10. A failure of the local pipeline leaves the remote record as it is:
    when [get_ip_info_local] raises and the remote pass returned a record,
    [get_ip_info] returns that record unchanged. *)
Theorem local_failure_keeps_remote (w : World) (ip : string) (e : exc)
  (remote : pydict) :
  get_ip_info_local w ip = Raise e →
  get_ip_info_remote w ip 3 "zh-CN" = Ok remote →
  get_ip_info w ip = Ok remote.
Proof.
  intros Hlocal Hremote. unfold get_ip_info.
  rewrite Hlocal, Hremote. cbn [try_except].
  rewrite merge_unified_empty.
  unfold get_ip_info_remote in Hremote. by eapply regions_fallback_idem.
Qed.

Lemma local_failure_keeps_remote_witness :
  get_ip_info_local world_local_down "1.2.3.4" = Raise ValueError
  ∧ get_ip_info world_local_down "1.2.3.4"
    = get_ip_info_remote world_local_down "1.2.3.4" 3 "zh-CN".
Proof.
  assert (Hl : get_ip_info_local world_local_down "1.2.3.4" = Raise ValueError)
    by reflexivity.
  split; [exact Hl|].
  assert (Hok : is_ok (get_ip_info_remote world_local_down "1.2.3.4" 3 "zh-CN")
                 = true) by (vm_compute; reflexivity).
  destruct (get_ip_info_remote world_local_down "1.2.3.4" 3 "zh-CN")
    as [r|e] eqn:E; [|discriminate Hok].
  exact (local_failure_keeps_remote _ _ _ _ Hl E).
Defined.

(** ** The local pipeline: override and failures *)

(** Every field of the dictionary after the updates of [get_cn]. *)
Lemma get_cn_update_fields (cn_info : CnRecord) (info : Info) :
  let info' := get_cn_update cn_info info in
  info_addr info' = info_addr info
  ∧ info_location info' = info_location info
  ∧ info_country info' = info_country info
  ∧ info_registered_country info' = info_registered_country info
  ∧ info_regions info'
    = match cn_regions cn_info with
      | [] => info_regions info
      | regions => Some regions
      end
  ∧ info_province info'
    = (if opt_truthy (info_province info) then info_province info
       else match cn_regions cn_info with
            | [] => info_province info
            | first :: _ => Some first
            end)
  ∧ info_city info'
    = (if opt_truthy (info_city info) then info_city info
       else match cn_regions cn_info with
            | _ :: _ :: _ => last (cn_regions cn_info)
            | _ => info_city info
            end)
  ∧ info_type info'
    = if opt_truthy (cn_net cn_info) then cn_net cn_info else info_type info.
Proof.
  unfold get_cn_update, cn_regions. cbv zeta.
  set (regions := de_duplicate _).
  set (info1 := match regions with [] => info | _ :: _ => _ end).
  assert (H1 :
    info_addr info1 = info_addr info
    ∧ info_location info1 = info_location info
    ∧ info_country info1 = info_country info
    ∧ info_registered_country info1 = info_registered_country info
    ∧ info_regions info1
      = match regions with [] => info_regions info | s :: l => Some (s :: l) end
    ∧ info_province info1
      = (if opt_truthy (info_province info) then info_province info
         else match regions with
              | [] => info_province info
              | first :: _ => Some first
              end)
    ∧ info_city info1
      = (if opt_truthy (info_city info) then info_city info
         else match regions with
              | _ :: _ :: _ => last regions
              | _ => info_city info
              end)
    ∧ info_type info1 = info_type info).
  { subst info1. unfold set_regions, set_province, set_city.
    destruct info as [ip a addr loc c rc rs p y t].
    destruct regions as [|d0 ds].
    - simpl. destruct (opt_truthy p), (opt_truthy y); repeat split.
    - rewrite last_cons_default. generalize (last (d0 :: ds)). intros lst.
      destruct ds as [|d1 ds]; simpl; destruct (opt_truthy p); simpl;
        destruct (opt_truthy y); simpl; repeat split. }
  clearbody info1. destruct H1 as (Ha & Hl & Hc & Hrc & Hr & Hp & Hy & Ht).
  rewrite <- Ha, <- Hl, <- Hc, <- Hrc, <- Hr, <- Hp, <- Hy, <- Ht.
  clear Ha Hl Hc Hrc Hr Hp Hy Ht.
  unfold set_as, set_type.
  destruct info1 as [ip [a|] addr loc c rc rs p y t];
    destruct (opt_truthy (cn_isp cn_info)), (cn_net cn_info) as [[|n0 net]|];
    cbn; repeat split.
Qed.

Lemma build_uniform_result_lookup_regions (info : Info) :
  build_uniform_result info !! "regions"
  = Some (VStr (match info_regions info with
                | Some (r :: rs) => Str.join "," (r :: rs)
                | _ => ""
                end)).
Proof.
  unfold build_uniform_result. rewrite lookup_fmap.
  by destruct (info_regions info) as [[|r rs]|].
Qed.

Lemma build_uniform_result_addr (info : Info) :
  build_uniform_result info !! "addr" = Some (opt_str (info_addr info)).
Proof.
  unfold build_uniform_result. rewrite lookup_fmap.
  by destruct (info_addr info).
Qed.

Lemma build_uniform_result_type (info : Info) :
  build_uniform_result info !! "type" = Some (opt_str (info_type info)).
Proof.
  unfold build_uniform_result. rewrite lookup_fmap.
  by destruct (info_type info).
Qed.

(** [get_ip_info_local] in terms of its steps. *)
Lemma get_ip_info_local_unfold (w : World) (ip : string) (info : Info) :
  get_maxmind w ip = Ok info →
  get_ip_info_local w ip
  = Ok (build_uniform_result
          (if in_jurisdiction info then try_except (get_cn w ip info) info
           else info)).
Proof.
  intros H. unfold get_ip_info_local, in_jurisdiction. rewrite H.
  reflexivity.
Qed.

(** X11. In the jurisdiction (country code [CN], registered country absent
    or [CN]), when the override database knows the address and gives at least
    one region, the [regions] of the local record are those of the override
    record, deduplicated and joined by commas, whatever the City record gave,
    and [addr] is the network of the override match. *)
Theorem override_gives_regions (w : World) (ip : string) (info : Info)
  (cn_info : CnRecord) (prefix : Z) (addr : string) :
  get_maxmind w ip = Ok info →
  in_jurisdiction info = true →
  cn_reader_get_with_prefix_len w ip = Ok (Some cn_info, prefix) →
  get_addr ip prefix = Ok addr →
  cn_regions cn_info ≠ [] →
  ∃ l, get_ip_info_local w ip = Ok l
       ∧ l !! "regions" = Some (VStr (Str.join "," (cn_regions cn_info)))
       ∧ l !! "addr" = Some (VStr addr).
Proof.
  intros Hmax Hj Hcn Haddr Hregions.
  eexists. split.
  { rewrite (get_ip_info_local_unfold _ _ _ Hmax), Hj. reflexivity. }
  unfold get_cn. rewrite Hcn. cbn [mbind result_bind]. rewrite Haddr.
  cbn [mbind result_bind try_except].
  destruct (get_cn_update_fields cn_info (set_addr addr info))
    as (Ha & _ & _ & _ & Hr & _).
  rewrite build_uniform_result_lookup_regions, build_uniform_result_addr, Ha, Hr.
  destruct (cn_regions cn_info) as [|r rs]; [done|].
  by destruct info.
Qed.

Lemma override_gives_regions_witness :
  ∃ l, get_ip_info_local world_override "115.236.0.1" = Ok l
       ∧ l !! "regions" = Some (VStr "浙江,杭州市,西湖区")
       ∧ l !! "addr" = Some (VStr "115.236.0.0/18").
Proof.
  assert (Hok : is_ok (get_maxmind world_override "115.236.0.1") = true)
    by (vm_compute; reflexivity).
  destruct (get_maxmind world_override "115.236.0.1") as [info|e] eqn:E;
    [|discriminate Hok].
  assert (Hj : in_jurisdiction info = true).
  { vm_compute in E. by injection E as <-. }
  destruct (override_gives_regions world_override "115.236.0.1" info
              {| cn_province := Some "浙江"; cn_city := Some "杭州市";
                 cn_districts := Some "西湖区"; cn_isp := None;
                 cn_net := Some "宽带" |} 18 "115.236.0.0/18" E Hj)
    as (l & Hl & Hr & Ha);
    [reflexivity | vm_compute; reflexivity | vm_compute; discriminate|].
  exists l. split; [exact Hl|]. split; [|exact Ha].
  rewrite Hr. vm_compute. reflexivity.
Defined.

(** X12. Outside the jurisdiction, and when the override lookup raises,
    finds nothing, or finds a record whose network cannot be computed, the
    local record is exactly the one built from the MaxMind lookups. *)
Theorem override_not_applied (w : World) (ip : string) (info : Info) :
  get_maxmind w ip = Ok info →
  in_jurisdiction info = false
  ∨ (∃ e, cn_reader_get_with_prefix_len w ip = Raise e)
  ∨ (∃ prefix, cn_reader_get_with_prefix_len w ip = Ok (None, prefix))
  ∨ (∃ cn_info prefix e,
       cn_reader_get_with_prefix_len w ip = Ok (Some cn_info, prefix)
       ∧ get_addr ip prefix = Raise e) →
  get_ip_info_local w ip = Ok (build_uniform_result info).
Proof.
  intros Hmax H. rewrite (get_ip_info_local_unfold _ _ _ Hmax).
  destruct H as [->|H]; [done|].
  destruct (in_jurisdiction info); [|done].
  unfold get_cn.
  destruct H as [[e ->]|[[p ->]|(cn & p & e & -> & Haddr)]]; try done.
  cbn [mbind result_bind]. by rewrite Haddr.
Qed.

Lemma override_not_applied_witness :
  ∃ info, get_maxmind world_sg "47.74.0.1" = Ok info
          ∧ get_ip_info_local world_sg "47.74.0.1" = Ok (build_uniform_result info).
Proof.
  assert (Hok : is_ok (get_maxmind world_sg "47.74.0.1") = true)
    by (vm_compute; reflexivity).
  destruct (get_maxmind world_sg "47.74.0.1") as [info|e] eqn:E;
    [|discriminate Hok].
  exists info. split; [reflexivity|].
  apply (override_not_applied world_sg "47.74.0.1" info E).
  left. vm_compute in E. by injection E as <-.
Defined.

Lemma bind_Raise {A B} (m : result A) (f : A → result B) (e : exc) :
  (x ← m; f x) = Raise e ↔ m = Raise e ∨ ∃ a, m = Ok a ∧ f a = Raise e.
Proof.
  destruct m as [a|e']; simpl.
  - split; [eauto|]. intros [?|(a' & [= <-] & H)]; done.
  - split; [intros [= ->]; by left|]. by intros [[= ->]|(a' & ? & _)].
Qed.


(** X14. The override never replaces a province or a city that the City
    step has set: [get_cn] keeps a non-empty [province] and a non-empty [city],
    fills a missing province with the first override region and a missing city
    with the last one when there are several, and leaves country and location
    alone; the network type is the one of the override record when it has
    one. *)
Theorem override_backfills (w : World) (ip : string) (info info' : Info)
  (cn_info : CnRecord) (prefix : Z) :
  cn_reader_get_with_prefix_len w ip = Ok (Some cn_info, prefix) →
  get_cn w ip info = Ok info' →
  (opt_truthy (info_province info) = true →
   info_province info' = info_province info)
  ∧ (opt_truthy (info_city info) = true → info_city info' = info_city info)
  ∧ (opt_truthy (info_province info) = false → cn_regions cn_info ≠ [] →
     info_province info' = head (cn_regions cn_info))
  ∧ (opt_truthy (info_city info) = false →
     (1 < length (cn_regions cn_info))%nat →
     info_city info' = last (cn_regions cn_info))
  ∧ info_country info' = info_country info
  ∧ info_location info' = info_location info
  ∧ (opt_truthy (cn_net cn_info) = true → info_type info' = cn_net cn_info).
Proof.
  intros Hcn H.
  apply get_cn_inv in H as (cn' & p & Hcn' & H).
  rewrite Hcn in Hcn'. injection Hcn' as <- <-.
  destruct H as (addr & _ & ->).
  destruct (get_cn_update_fields cn_info (set_addr addr info))
    as (_ & Hl & Hc & _ & _ & Hp & Hy & Ht).
  rewrite Hl, Hc, Hp, Hy, Ht.
  replace (info_province (set_addr addr info)) with (info_province info)
    by (by destruct info).
  replace (info_city (set_addr addr info)) with (info_city info)
    by (by destruct info).
  split_and!; try (by destruct info).
  - by intros ->.
  - by intros ->.
  - intros -> Hne. by destruct (cn_regions cn_info).
  - intros -> Hlen. by destruct (cn_regions cn_info) as [|? [|? ?]]; simpl in Hlen;
      try lia.
  - by intros ->.
Qed.

Lemma override_backfills_witness :
  ∃ info info',
    get_maxmind world_override "115.236.0.1" = Ok info
    ∧ get_cn world_override "115.236.0.1" info = Ok info'
    ∧ info_province info' = Some "浙江省"
    ∧ info_regions info' = Some ["浙江"; "杭州市"; "西湖区"].
Proof.
  assert (Hok : is_ok (get_maxmind world_override "115.236.0.1") = true)
    by (vm_compute; reflexivity).
  destruct (get_maxmind world_override "115.236.0.1") as [info|e] eqn:E;
    [|discriminate Hok].
  assert (Hinfo : info_province info = Some "浙江省").
  { vm_compute in E. by injection E as <-. }
  assert (Hok' : is_ok (get_cn world_override "115.236.0.1" info) = true).
  { unfold get_cn. cbn. by destruct (get_addr _ _) eqn:Ea; [|vm_compute in Ea]. }
  destruct (get_cn world_override "115.236.0.1" info) as [info'|e] eqn:E';
    [|discriminate Hok'].
  exists info, info'. split; [reflexivity|]. split; [exact E'|].
  destruct (override_backfills world_override "115.236.0.1" info info' _ 18
              eq_refl E') as (Hp & _).
  split; [rewrite Hp; by rewrite Hinfo|].
  apply get_cn_inv in E' as (cn & p & [= <- <-] & addr & _ & ->).
  destruct (get_cn_update_fields
              {| cn_province := Some "浙江"; cn_city := Some "杭州市";
                 cn_districts := Some "西湖区"; cn_isp := None;
                 cn_net := Some "宽带" |} (set_addr addr info))
    as (_ & _ & _ & _ & Hr & _).
  rewrite Hr. vm_compute. reflexivity.
Defined.

Lemma get_maxmind_geo_location (ret : Info) (city_info : CityRecord) :
  info_location (get_maxmind_geo ret city_info)
  = match city_location city_info with
    | Some l => Some (opt_float (latitude l), opt_float (longitude l))
    | None => info_location ret
    end.
Proof. geo_cases city_info; reflexivity. Qed.

Lemma opt_float_ok (o : option spec_float) : float_or_none (opt_float o).
Proof. destruct o; [right; eauto | by left]. Qed.

Lemma get_maxmind_location (w : World) (ip : string) (info : Info) :
  get_maxmind w ip = Ok info →
  ∀ a b, info_location info = Some (a, b) → float_or_none a ∧ float_or_none b.
Proof.
  intros H a b.
  apply get_maxmind_inv in H as (asn & ci & p & addr & _ & _ & _ & ->).
  destruct ci as [ci|]; [|by destruct asn].
  rewrite get_maxmind_geo_location.
  destruct (city_location ci); [|by destruct asn].
  intros [= <- <-]. split; apply opt_float_ok.
Qed.

Lemma get_cn_location (w : World) (ip : string) (info info' : Info) :
  get_cn w ip info = Ok info' → info_location info' = info_location info.
Proof.
  intros H. apply get_cn_inv in H as (cn & p & _ & H).
  destruct cn as [cn|]; [|by subst].
  destruct H as (addr & _ & ->).
  destruct (get_cn_update_fields cn (set_addr addr info)) as (_ & -> & _).
  by destruct info.
Qed.

Lemma build_uniform_result_types (info : Info) (k : string) (v : pyval) :
  (∀ a b, info_location info = Some (a, b) → float_or_none a ∧ float_or_none b) →
  build_uniform_result info !! k = Some v → local_value_ok k v.
Proof.
  intros Hloc. unfold build_uniform_result. rewrite lookup_fmap.
  intros (v0 & Hv0 & ->)%fmap_Some.
  apply elem_of_list_to_map_2 in Hv0. rewrite !elem_of_cons in Hv0.
  unfold local_value_ok, get_nested, opt_str in *.
  repeat destruct Hv0 as [[= -> ->]|Hv0]; [..|by apply elem_of_nil in Hv0].
  - left. eauto.
  - left. destruct (info_addr info); eauto.
  - destruct (info_as info) as [a|]; [|left; eauto].
    destruct (as_number a); simpl; [right; left; eauto | left; eauto].
  - left. destruct (info_as info) as [a|]; [|eauto].
    destruct (as_name a); simpl; eauto.
  - left. destruct (info_as info) as [a|]; [|eauto].
    destruct (as_info a); simpl; eauto.
  - left. destruct (info_country info); simpl; eauto.
  - left. destruct (info_country info); simpl; eauto.
  - left. destruct (info_registered_country info); simpl; eauto.
  - left. destruct (info_registered_country info); simpl; eauto.
  - destruct (info_location info) as [[a b]|] eqn:E; [|left; eauto].
    destruct (Hloc a b eq_refl) as [[->|[f ->]] _]; simpl;
      [left; eauto | right; right; eauto].
  - destruct (info_location info) as [[a b]|] eqn:E; [|left; eauto].
    destruct (Hloc a b eq_refl) as [_ [->|[f ->]]]; simpl;
      [left; eauto | right; right; eauto].
  - left. destruct (info_province info); eauto.
  - left. destruct (info_city info); eauto.
  - left. destruct (info_regions info) as [[|r rs]|]; eauto.
  - left. destruct (info_type info); eauto.
Qed.

(** X15. Every value of the record that the local pipeline returns is a
    string, except [as_number], which is the integer of the ASN database when
    there is one, and [latitude] and [longitude], which are the floats of the
    City database when there are any; no value is [None]. *)
Theorem local_record_types (w : World) (ip : string) (l : pydict) :
  get_ip_info_local w ip = Ok l →
  ∀ k v, l !! k = Some v → local_value_ok k v.
Proof.
  unfold get_ip_info_local. intros H k v.
  apply bind_Ok in H as (info & Hinfo & [= <-]).
  apply build_uniform_result_types.
  pose proof (get_maxmind_location _ _ _ Hinfo) as Hloc.
  destruct (_ && _); [|done].
  destruct (get_cn w ip info) as [info'|e] eqn:E; cbn [try_except]; [|done].
  by rewrite (get_cn_location _ _ _ _ E).
Qed.

Lemma local_record_types_witness :
  ∃ l, get_ip_info_local world_cn "1.2.3.4" = Ok l
       ∧ l !! "as_number" = Some (VInt 4134)
       ∧ local_value_ok "as_number" (VInt 4134).
Proof.
  assert (Hf : field "as_number" (get_ip_info_local world_cn "1.2.3.4")
               = Some (VInt 4134)) by (vm_compute; reflexivity).
  destruct (get_ip_info_local world_cn "1.2.3.4") as [l|e] eqn:E;
    [|discriminate Hf].
  exists l. split; [reflexivity|]. split; [exact Hf|].
  exact (local_record_types world_cn "1.2.3.4" l E "as_number" _ Hf).
Defined.

(** X16. When the City database does not know the address, the local
    pipeline returns early: the record has the network of the City lookup as
    [addr], the fields of the ASN step, and the empty string for every
    geographic field; the override database is not consulted. *)
Theorem no_city_record (w : World) (ip : string) (asn_info : option AsnRecord)
  (prefix : Z) (addr : string) :
  asn_reader_get w ip = Ok asn_info →
  city_reader_get_with_prefix_len w ip = Ok (None, prefix) →
  get_addr ip prefix = Ok addr →
  ∃ l, get_ip_info_local w ip = Ok l
       ∧ l !! "ip" = Some (VStr ip)
       ∧ l !! "addr" = Some (VStr addr)
       ∧ (∀ k, k ∈ geo_keys → l !! k = Some (VStr ""))
       ∧ l !! "as_number"
         = Some (match asn_info with
                 | Some a => VInt (autonomous_system_number a)
                 | None => VStr ""
                 end).
Proof.
  intros Hasn Hcity Haddr.
  assert (Hmax : get_maxmind w ip
                 = Ok (set_addr addr
                         (match asn_info with
                          | Some a => set_as (as_data_of a) (new_info ip)
                          | None => new_info ip
                          end))).
  { unfold get_maxmind. rewrite Hasn. cbn [mbind result_bind].
    rewrite Hcity. cbn [mbind result_bind]. by rewrite Haddr. }
  eexists. split.
  { rewrite (get_ip_info_local_unfold _ _ _ Hmax).
    replace (in_jurisdiction _) with false by (by destruct asn_info).
    reflexivity. }
  split_and!.
  - by destruct asn_info.
  - by destruct asn_info.
  - intros k Hk. unfold geo_keys in Hk. rewrite !elem_of_cons, elem_of_nil in Hk.
    repeat destruct Hk as [->|Hk]; [by destruct asn_info ..|done].
  - by destruct asn_info.
Qed.

Lemma no_city_record_witness :
  ∃ l, get_ip_info_local world_no_city "1.1.1.1" = Ok l
       ∧ l !! "addr" = Some (VStr "1.0.0.0/8")
       ∧ l !! "country_code" = Some (VStr "").
Proof.
  destruct (no_city_record world_no_city "1.1.1.1" _ 8 "1.0.0.0/8" eq_refl eq_refl)
    as (l & Hl & _ & Ha & Hgeo & _); [vm_compute; reflexivity|].
  exists l. split; [exact Hl|]. split; [exact Ha|].
  apply Hgeo. unfold geo_keys. rewrite !elem_of_cons. tauto.
Defined.

(** ** String helpers *)








(** A name that mentions two providers gets the label of the earlier rule. *)
Example derive_isp_order :
  derive_isp_from_org "ByteDance via Alibaba Cloud" = Some "火山引擎"
  ∧ derive_isp_from_org "Tencent Building, Huawei Road" = Some "腾讯云"
  ∧ derive_isp_from_org "Chinanet" = None.
Proof. split_and!; vm_compute; reflexivity. Qed.










Example as_number_examples :
  _as_number_from_string (fun _ => "") (VStr "AS15169") = VStr "15169"
  ∧ _as_number_from_string (fun _ => "") (VStr " as4134 ") = VStr "4134"
  ∧ _as_number_from_string (fun _ => "") (VInt 13335) = VStr "13335"
  ∧ _as_number_from_string (fun _ => "") (VStr "AS15169 Google 2") = VStr "151692".
Proof. split_and!; vm_compute; reflexivity. Qed.

Lemma filter_ne_absent (x : string) (l : list string) :
  x ∉ l → filter (fun y => y ≠ x) l = l.
Proof.
  induction l as [|y l IH]; [done|].
  intros [Hne Hl]%not_elem_of_cons.
  rewrite filter_cons_True by congruence. by rewrite IH.
Qed.

Lemma stable_dedup_NoDup (l : list string) : NoDup l → stable_dedup l = l.
Proof.
  induction 1 as [|x l Hx _ IH]; [done|]. simpl.
  by rewrite IH, filter_ne_absent.
Qed.

Lemma filter_all (P : string → Prop) `{∀ y, Decision (P y)} (l : list string) :
  (∀ y, y ∈ l → P y) → filter P l = l.
Proof.
  induction l as [|y l IH]; [done|]. intros Hall.
  rewrite filter_cons_True by (apply Hall; by left).
  rewrite IH; [done|]. intros z Hz. apply Hall. by right.
Qed.

(** X20. Deduplicating a second time changes nothing. *)
Theorem de_duplicate_idempotent (l : list string) :
  de_duplicate (de_duplicate l) = de_duplicate l.
Proof.
  rewrite (de_duplicate_spec (de_duplicate l)), (de_duplicate_spec l).
  unfold deduplicateOrdered.
  set (m := stable_dedup (filter (fun s : string => s ≠ "") l)).
  rewrite (filter_all _ m).
  - apply stable_dedup_NoDup, NoDup_stable_dedup.
  - intros y Hy. unfold m in Hy.
    apply elem_of_stable_dedup, list_elem_of_filter in Hy. tauto.
Qed.

(** ** The adapters *)

Lemma in_schema_bool (k : string) :
  existsb (String.eqb k) schema = true → k ∈ schema.
Proof.
  intros (y & Hy & ->%String.eqb_eq)%existsb_exists. by apply list_elem_of_In.
Qed.

(** A record with exactly the keys of the schema. *)
Lemma shaped_template (k : string) :
  is_Some (_unified_template !! k) ↔ k ∈ schema.
Proof.
  split.
  - intros [v Hv]. by apply template_lookup_inv in Hv as [_ ?].
  - intros Hk. rewrite template_lookup by done. eauto.
Qed.

Lemma shaped_insert (u : pydict) (k0 : string) (v : pyval) :
  existsb (String.eqb k0) schema = true →
  (∀ k, is_Some (u !! k) ↔ k ∈ schema) →
  ∀ k, is_Some (<[k0 := v]> u !! k) ↔ k ∈ schema.
Proof.
  intros Hk0%in_schema_bool Hu k. rewrite lookup_insert_is_Some, Hu.
  split; [intros [<-|[_ ?]]; done|]. intros Hk.
  destruct (decide (k0 = k)); [by left | by right].
Qed.

Lemma Ok_inj {A} (a b : A) : Ok a = Ok b → a = b.
Proof. by intros [= ->]. Qed.

(** Inversion of a successful run of an adapter: every [get] succeeded. *)
Ltac mapper_inv H :=
  cbv beta zeta in H;
  repeat lazymatch type of H with
    | mbind _ _ = Ok _ =>
        apply bind_Ok in H as (? & ? & H); cbv beta zeta in H
    end;
  lazymatch type of H with
  | Ok _ = Ok _ => apply Ok_inj in H; rewrite <- H; clear H
  end.

Ltac shaped :=
  repeat first
    [ apply shaped_template
    | apply shaped_insert; [vm_compute; reflexivity|] ].

Ltac partial_ok :=
  split; [shaped|];
  rewrite !lookup_insert_ne by done; split_and!; by vm_compute.

Lemma _from_ip_sb_shape (repr : pyval → string) (j : pyval) (p : pydict) :
  _from_ip_sb repr j = Ok p → partial_ok p.
Proof. unfold _from_ip_sb. intros H. mapper_inv H. partial_ok. Qed.

Lemma _from_ip2location_shape (repr : pyval → string) (j : pyval) (p : pydict) :
  _from_ip2location repr j = Ok p → partial_ok p.
Proof. unfold _from_ip2location. intros H. mapper_inv H. partial_ok. Qed.

Lemma _from_realip_shape (j : pyval) (p : pydict) :
  _from_realip j = Ok p → partial_ok p.
Proof. unfold _from_realip. intros H. mapper_inv H. partial_ok. Qed.

Lemma _from_ip_api_shape (repr : pyval → string) (j : pyval) (p : pydict) :
  _from_ip_api repr j = Ok p → partial_ok p.
Proof. unfold _from_ip_api. intros H. mapper_inv H. partial_ok. Qed.

Lemma _from_ipapi_is_shape (repr : pyval → string) (j : pyval) (p : pydict) :
  _from_ipapi_is repr j = Ok p → partial_ok p.
Proof.
  unfold _from_ipapi_is. intros H. mapper_inv H.
  destruct (truthy _); partial_ok.
Qed.

Lemma _from_ipwhois_shape (repr : pyval → string) (j : pyval) (p : pydict) :
  _from_ipwhois repr j = Ok p → partial_ok p.
Proof. unfold _from_ipwhois. intros H. mapper_inv H. partial_ok. Qed.

Lemma sources_cases (repr : pyval → string) (ip lang : string) (src : RemoteSource) :
  src ∈ _sources_for_ip repr ip lang →
  mapper src = _from_ip_sb repr ∨ mapper src = _from_ip2location repr
  ∨ mapper src = _from_realip ∨ mapper src = _from_ip_api repr
  ∨ mapper src = _from_ipapi_is repr ∨ mapper src = _from_ipwhois repr.
Proof.
  unfold _sources_for_ip. rewrite !elem_of_cons, elem_of_nil.
  intros [->|[->|[->|[->|[->|[->|[]]]]]]]; cbn [mapper]; tauto.
Qed.

(** X21. Each of the six adapters, whatever JSON value it is given, either
    raises or returns a record with exactly the keys of the unified schema, in
    which [regions] and the two registered-country fields are the empty string;
    a JSON value that is not an object makes it raise. *)
Theorem adapters_return_full_records (repr : pyval → string) (ip lang : string)
  (src : RemoteSource) (j : pyval) :
  src ∈ _sources_for_ip repr ip lang →
  (∀ p, mapper src j = Ok p →
        (∀ k, is_Some (p !! k) ↔ k ∈ schema)
        ∧ p !! "regions" = Some (VStr "")
        ∧ p !! "registered_country_code" = Some (VStr "")
        ∧ p !! "registered_country_name" = Some (VStr ""))
  ∧ ((∀ d, j ≠ VDict d) → mapper src j = Raise AttributeError).
Proof.
  intros Hsrc. split.
  - intros p Hp. change (partial_ok p).
    destruct (sources_cases _ _ _ _ Hsrc) as [H|[H|[H|[H|[H|H]]]]];
      rewrite H in Hp.
    + by eapply _from_ip_sb_shape.
    + by eapply _from_ip2location_shape.
    + by eapply _from_realip_shape.
    + by eapply _from_ip_api_shape.
    + by eapply _from_ipapi_is_shape.
    + by eapply _from_ipwhois_shape.
  - intros Hj.
    destruct (sources_cases _ _ _ _ Hsrc) as [H|[H|[H|[H|[H|H]]]]];
      rewrite H;
      destruct j as [| | | | | |d]; try reflexivity; by destruct (Hj d).
Qed.

Lemma adapters_return_full_records_witness :
  {| url := "https://realip.cc/?ip=1.2.3.4"; mapper := _from_realip |}
    ∈ _sources_for_ip (fun _ => "") "1.2.3.4" "zh-CN"
  ∧ _from_realip (VList [VStr "1.2.3.4"]) = Raise AttributeError.
Proof.
  assert (Hsrc : {| url := "https://realip.cc/?ip=1.2.3.4"; mapper := _from_realip |}
                   ∈ _sources_for_ip (fun _ => "") "1.2.3.4" "zh-CN").
  { unfold _sources_for_ip. rewrite !elem_of_cons. right. right. left. reflexivity. }
  split; [exact Hsrc|].
  destruct (adapters_return_full_records (fun _ => "") "1.2.3.4" "zh-CN" _
              (VList [VStr "1.2.3.4"]) Hsrc) as [_ H].
  apply H. discriminate.
Defined.

(** X22. When the shuffle only reorders the sources, the [regions] of the
    record of the remote pass are always synthesized: they are the non-empty
    ones of its [province] and [city] joined by a comma, because no adapter
    sets [regions]; and its registered-country fields are empty, because no
    adapter sets them either. *)
Theorem remote_regions_are_joined (w : World) (ip lang : string) (max_sources : Z)
  (r : pydict) :
  (∀ src, src ∈ random_shuffle w (_sources_for_ip (py_repr w) ip lang) →
          src ∈ _sources_for_ip (py_repr w) ip lang) →
  get_ip_info_remote w ip max_sources lang = Ok r →
  r !! "regions" = Some (VStr (joined_regions r))
  ∧ r !! "registered_country_code" = Some (VStr "")
  ∧ r !! "registered_country_name" = Some (VStr "").
Proof.
  intros Hshuffle Hr. unfold get_ip_info_remote in Hr.
  set (u := remote_loop _ _ _ _ _) in Hr.
  assert (Hu : u !! "regions" = Some (VStr "")
               ∧ u !! "registered_country_code" = Some (VStr "")
               ∧ u !! "registered_country_name" = Some (VStr "")).
  { apply (remote_loop_ind w
             (fun u => u !! "regions" = Some (VStr "")
                       ∧ u !! "registered_country_code" = Some (VStr "")
                       ∧ u !! "registered_country_name" = Some (VStr ""))
             partial_ok).
    - intros u0 p (H1 & H2 & H3) (_ & P1 & P2 & P3).
      rewrite !merge_unified_lookup, P1, P2, P3, H1, H2, H3.
      by destruct (writable u0 "regions"),
        (writable u0 "registered_country_code"),
        (writable u0 "registered_country_name").
    - intros src j p Hsrc _ Hp.
      by apply (adapters_return_full_records (py_repr w) ip lang src j
                  (Hshuffle src Hsrc)).
    - split_and!; apply template_ip_lookup_ne; try done; by apply in_schema_bool. }
  destruct Hu as (H1 & H2 & H3).
  pose proof (regions_fallback_spec _ _ Hr) as Hspec.
  rewrite (dict_get_lookup _ _ _ _ H1) in Hspec. cbn [truthy Str.is_empty negb] in Hspec.
  split_and!.
  - rewrite Hspec at 1. rewrite lookup_insert_eq. do 2 f_equal.
    by rewrite Hspec, joined_regions_insert.
  - by rewrite (regions_fallback_lookup _ _ _ Hr).
  - by rewrite (regions_fallback_lookup _ _ _ Hr).
Qed.

Lemma remote_regions_are_joined_witness :
  ∃ r, get_ip_info_remote world_other_ip "1.2.3.4" 3 "zh-CN" = Ok r
       ∧ r !! "regions" = Some (VStr (joined_regions r)).
Proof.
  assert (Hok : is_ok (get_ip_info_remote world_other_ip "1.2.3.4" 3 "zh-CN") = true)
    by (vm_compute; reflexivity).
  destruct (get_ip_info_remote world_other_ip "1.2.3.4" 3 "zh-CN") as [r|e] eqn:E;
    [|discriminate Hok].
  exists r. split; [reflexivity|].
  apply (remote_regions_are_joined world_other_ip "1.2.3.4" "zh-CN" 3 r);
    [|exact E].
  intros src Hsrc. exact Hsrc.
Defined.

(** ** Network prefix: failures and addresses of one network *)











(** * The endpoint and the key verification *)

(** ** Extraction of the key *)











(** ** Verification of the key *)

Lemma lift_session_Return {A B} (env : Env) (op : db_op) (a : A)
    (f : A → outcome B) (b : B) :
  (lift (session env op a) ≫= f) = Return b →
  fault env op = false ∧ f a = Return b.
Proof. unfold session. by destruct (fault env op). Qed.

Lemma lift_session_ok {A B} (env : Env) (op : db_op) (a : A) (f : A → outcome B) :
  fault env op = false → (lift (session env op a) ≫= f) = f a.
Proof. unfold session. by intros ->. Qed.

Lemma verify_api_key_sound (env : Env) (db : Db) (api_key : option string)
    (api_id : Z) (k : string) :
  verify_api_key env db api_key api_id = Return k →
  api_key = Some k ∧ Str.strip k ≠ ""
  ∧ ∃ sub api, subscriptions db !! k = Some sub ∧ apis db !! api_id = Some api
      ∧ in_good_standing (now env) api_id sub api ∧ has_quota sub.
Proof.
  unfold verify_api_key. destruct api_key as [key|]; [|done].
  destruct (Str.is_empty key || _) eqn:Eblank; [done|].
  apply orb_false_iff in Eblank as [_ Elen].
  intros H. apply lift_session_Return in H as [_ H].
  destruct (subscriptions db !! key) as [sub|] eqn:Esub; [|done].
  destruct (bool_decide (sub_status sub = Some "active")) eqn:Est; [|done].
  apply bool_decide_eq_true in Est. cbn [negb] in H.
  destruct (Z.leb_spec (sub_end_date sub) (now env)) as [|Hend]; [done|].
  destruct (sub_user sub) as [user|] eqn:Eu; [|done].
  destruct (user_is_active user) as [[|]|] eqn:Ea; try done. cbn [bool_truthy negb] in H.
  destruct (Z.eqb_spec (sub_api_id sub) api_id) as [Hid|]; [|done]. cbn [negb] in H.
  apply lift_session_Return in H as [_ H].
  destruct (apis db !! api_id) as [api|] eqn:Eapi; [|done].
  destruct (api_is_active api) as [[|]|] eqn:Eact; try done. cbn [bool_truthy negb] in H.
  destruct (bool_truthy (api_deprecated api)) eqn:Edep; [done|].
  destruct (sub_remaining_calls sub) as [r|] eqn:Er.
  - destruct (Z.leb_spec r 0); [done|]. injection H as <-.
    split_and!; [done| |].
    { intros E. rewrite E in Elen. done. }
    exists sub, api. split_and!; try done.
    + unfold in_good_standing. rewrite Eu, Eact, Edep. split_and!; eauto.
    + intros r'. rewrite Er. intros [= <-]. done.
  - injection H as <-. split_and!; [done| |].
    { intros E. rewrite E in Elen. done. }
    exists sub, api. split_and!; try done.
    + unfold in_good_standing. rewrite Eu, Eact, Edep. split_and!; eauto.
    + intros r'. by rewrite Er.
Qed.

Lemma strip_nonempty (k : string) :
  Str.strip k ≠ "" →
  Str.is_empty k || (String.length (Str.strip k) =? 0)%nat = false.
Proof.
  intros H. destruct k as [|c r]; [done|]. cbn [Str.is_empty orb].
  by destruct (Str.strip (String c r)).
Qed.

Lemma verify_api_key_complete (env : Env) (db : Db) (api_id : Z) (k : string)
    (sub : Subscription) (api : API) :
  fault env OpGetByApiKey = false → fault env OpApiById = false →
  Str.strip k ≠ "" →
  subscriptions db !! k = Some sub → apis db !! api_id = Some api →
  in_good_standing (now env) api_id sub api → has_quota sub →
  verify_api_key env db (Some k) api_id = Return k.
Proof.
  intros Hf1 Hf2 Hk Hsub Hapi (Hst & Hend & (user & Hu & Hua) & Hid & Hact & Hdep) Hq.
  unfold verify_api_key. rewrite (strip_nonempty k Hk).
  rewrite (lift_session_ok _ _ _ _ Hf1), Hsub, Hst.
  rewrite bool_decide_eq_true_2 by done. cbn [negb].
  destruct (Z.leb_spec (sub_end_date sub) (now env)); [lia|].
  rewrite Hu, Hua. cbn [bool_truthy negb].
  rewrite Hid, Z.eqb_refl. cbn [negb].
  rewrite (lift_session_ok _ _ _ _ Hf2), Hapi, Hact, Hdep. cbn [bool_truthy negb].
  destruct (sub_remaining_calls sub) as [r|] eqn:Er; [|done].
  specialize (Hq r Er). destruct (Z.leb_spec r 0); [lia|done].
Qed.

Lemma verify_api_key_refusals (env : Env) (db : Db) (api_key : option string)
    (api_id : Z) (e : http_exc) :
  fault env OpGetByApiKey = false → fault env OpApiById = false →
  verify_api_key env db api_key api_id = Throw e →
  ∃ status detail headers,
    e = HTTPException status detail headers ∧ status ∈ refusal_codes.
Proof.
  intros Hf1 Hf2. unfold verify_api_key, refusal_codes.
  destruct api_key as [key|];
    [|intros [= <-]; eexists _, _, _; split; [done|set_solver]].
  destruct (_ || _); [intros [= <-]; eexists _, _, _; split; [done|set_solver]|].
  rewrite (lift_session_ok _ _ _ _ Hf1).
  destruct (subscriptions db !! key) as [sub|];
    [|intros [= <-]; eexists _, _, _; split; [done|set_solver]].
  destruct (negb _); [intros [= <-]; eexists _, _, _; split; [done|set_solver]|].
  destruct (_ <=? _); [intros [= <-]; eexists _, _, _; split; [done|set_solver]|].
  destruct (match sub_user sub with Some _ => _ | None => _ end);
    [intros [= <-]; eexists _, _, _; split; [done|set_solver]|].
  destruct (negb _); [intros [= <-]; eexists _, _, _; split; [done|set_solver]|].
  rewrite (lift_session_ok _ _ _ _ Hf2).
  destruct (apis db !! api_id) as [api|];
    [|intros [= <-]; eexists _, _, _; split; [done|set_solver]].
  destruct (negb _); [intros [= <-]; eexists _, _, _; split; [done|set_solver]|].
  destruct (bool_truthy _); [intros [= <-]; eexists _, _, _; split; [done|set_solver]|].
  destruct (match sub_remaining_calls sub with Some _ => _ | None => _ end);
    [intros [= <-]; eexists _, _, _; split; [done|set_solver]|done].
Qed.

(** X26. [verify_api_key] lets a key through only if the key is not blank, its
    subscription exists, is active, has not reached its end date, belongs to
    an active user and to this API, the API exists, is active and not
    deprecated, and the subscription is unlimited or has calls left.  When
    the two queries succeed, every such key is let through, and a refusal is
    an [HTTPException] with status 401, 403, 404, 410 or 429. *)
Theorem verification_accepts_exactly (env : Env) (db : Db)
    (api_key : option string) (api_id : Z) :
  (∀ k, verify_api_key env db api_key api_id = Return k →
        api_key = Some k ∧ Str.strip k ≠ ""
        ∧ ∃ sub api, subscriptions db !! k = Some sub
            ∧ apis db !! api_id = Some api
            ∧ in_good_standing (now env) api_id sub api ∧ has_quota sub)
  ∧ (fault env OpGetByApiKey = false → fault env OpApiById = false →
     (∀ k sub api, api_key = Some k → Str.strip k ≠ "" →
        subscriptions db !! k = Some sub → apis db !! api_id = Some api →
        in_good_standing (now env) api_id sub api → has_quota sub →
        verify_api_key env db api_key api_id = Return k)
     ∧ (∀ e, verify_api_key env db api_key api_id = Throw e →
          ∃ status detail headers,
            e = HTTPException status detail headers ∧ status ∈ refusal_codes)).
Proof.
  split; [apply verify_api_key_sound|].
  intros Hf1 Hf2. split.
  - intros k sub api ->. by apply verify_api_key_complete.
  - intros e. by apply verify_api_key_refusals.
Qed.

(** ** Counting of the calls *)

Lemma verify_api_key_standing (env : Env) (db : Db) (api_id : Z) (k : string)
    (sub : Subscription) (api : API) :
  fault env OpGetByApiKey = false → fault env OpApiById = false →
  Str.strip k ≠ "" →
  subscriptions db !! k = Some sub → apis db !! api_id = Some api →
  in_good_standing (now env) api_id sub api →
  verify_api_key env db (Some k) api_id
  = if match sub_remaining_calls sub with
       | Some remaining => remaining <=? 0
       | None => false
       end
    then Throw quota_exhausted else Return k.
Proof.
  intros Hf1 Hf2 Hk Hsub Hapi (Hst & Hend & (user & Hu & Hua) & Hid & Hact & Hdep).
  unfold verify_api_key. rewrite (strip_nonempty k Hk).
  rewrite (lift_session_ok _ _ _ _ Hf1), Hsub, Hst.
  rewrite bool_decide_eq_true_2 by done. cbn [negb].
  destruct (Z.leb_spec (sub_end_date sub) (now env)); [lia|].
  rewrite Hu, Hua. cbn [bool_truthy negb].
  rewrite Hid, Z.eqb_refl. cbn [negb].
  rewrite (lift_session_ok _ _ _ _ Hf2), Hapi, Hact, Hdep. done.
Qed.

Lemma record_api_call_counts (env : Env) (db : Db) (key : string) (api_id : Z)
    (sub : Subscription) (used : Z) (api : API) (count : Z) :
  fault env OpRecordApi = false → fault env OpRecordSubscription = false →
  fault env OpCommit = false →
  subscriptions db !! key = Some sub → sub_used_calls sub = Some used →
  apis db !! api_id = Some api → api_call_count api = Some count →
  record_api_call env db (Some key) api_id
  = Return ({| apis := <[api_id := call_one api count]> (apis db);
               subscriptions := <[key := use_one sub used]> (subscriptions db) |},
            true).
Proof.
  intros Hf1 Hf2 Hf3 Hsub Hused Hapi Hcount.
  unfold record_api_call, record_api_call_try, session.
  rewrite Hf1, Hf2, Hf3. cbn [mbind result_bind option_bind].
  rewrite Hapi. cbn [mbind result_bind option_bind]. rewrite Hsub, Hcount, Hused.
  cbn [incr mbind result_bind]. unfold call_one, use_one.
  destruct (sub_remaining_calls sub) as [r|];
    cbn [fmap option_fmap option_map]; [by destruct (0 <? r)|done].
Qed.

Lemma record_api_call_skips (env : Env) (db : Db) (key : string) (api_id : Z) :
  fault env OpRollback = false →
  ¬ countable env db key api_id →
  record_api_call env db (Some key) api_id = Return (db, false).
Proof.
  intros Hrb Hn.
  unfold record_api_call, record_api_call_try, session.
  destruct (fault env OpRecordApi) eqn:Hf1; cbn [mbind result_bind option_bind].
  { unfold session. by rewrite Hrb. }
  destruct (apis db !! api_id) as [api|] eqn:Hapi; [|done].
  destruct (fault env OpRecordSubscription) eqn:Hf2; cbn [mbind result_bind option_bind].
  { unfold session. by rewrite Hrb. }
  destruct (subscriptions db !! key) as [sub|] eqn:Hsub; [|done].
  destruct (api_call_count api) as [count|] eqn:Hcount; cbn [incr mbind result_bind];
    [|unfold session; by rewrite Hrb].
  destruct (sub_used_calls sub) as [used|] eqn:Hused; cbn [incr mbind result_bind];
    [|unfold session; by rewrite Hrb].
  destruct (fault env OpCommit) eqn:Hf3; cbn [mbind result_bind].
  { unfold session. by rewrite Hrb. }
  exfalso. apply Hn. unfold countable. split_and!; eauto.
Qed.

Lemma countable_dec (env : Env) (db : Db) (key : string) (api_id : Z) :
  countable env db key api_id ∨ ¬ countable env db key api_id.
Proof.
  unfold countable.
  destruct (fault env OpRecordApi); [right; by intros (? & _)|].
  destruct (fault env OpRecordSubscription); [right; by intros (_ & ? & _)|].
  destruct (fault env OpCommit); [right; by intros (_ & _ & ? & _)|].
  destruct (subscriptions db !! key) as [sub|];
    [|right; by intros (_ & _ & _ & (? & ? & ? & _) & _)].
  destruct (sub_used_calls sub) as [used|] eqn:Hu;
    [|right; intros (_ & _ & _ & (? & ? & [= <-] & ?) & _); congruence].
  destruct (apis db !! api_id) as [api|];
    [|right; by intros (_ & _ & _ & _ & (? & ? & ? & _))].
  destruct (api_call_count api) as [count|] eqn:Hc;
    [|right; intros (_ & _ & _ & _ & (? & ? & [= <-] & ?)); congruence].
  left. split_and!; eauto.
Qed.

Lemma accepted_call (env : Env) (db : Db) (api_id : Z) (key : string) :
  fault env OpSession = false → fault env OpClose = false →
  fault env OpRollback = false →
  verify_api_key env db (Some key) api_id = Return key →
  ∃ db', verify_and_record_api_call env db api_id None (Some key)
         = (db', Return key)
    ∧ (countable env db key api_id → counted db db' key api_id)
    ∧ (¬ countable env db key api_id → db' = db).
Proof.
  intros Hs Hc Hrb Hv.
  unfold verify_and_record_api_call. rewrite Hs, Hc, Hv.
  destruct (countable_dec env db key api_id) as [Hy|Hn].
  - pose proof Hy as (Hf1 & Hf2 & Hf3 & (sub & used & Hsub & Hused)
                      & (api & count & Hapi & Hcount)).
    rewrite (record_api_call_counts _ _ _ _ _ _ _ _ Hf1 Hf2 Hf3 Hsub Hused Hapi Hcount).
    eexists. split; [done|]. split; [|done].
    intros _. exists sub, used, api, count. done.
  - rewrite (record_api_call_skips _ _ _ _ Hrb Hn).
    exists db. done.
Qed.

(** X27. Once [verify_api_key] has let the key through, the call is accepted
    whether or not it can be counted: it is counted when the three
    operations of [record_api_call] succeed and the two counters are not
    null, and otherwise the tables are left as they were. *)
Theorem accepted_call_accounting (env : Env) (db : Db) (api_id : Z) (key : string) :
  fault env OpSession = false → fault env OpClose = false →
  fault env OpRollback = false →
  verify_api_key env db (Some key) api_id = Return key →
  ∃ db', verify_and_record_api_call env db api_id None (Some key)
         = (db', Return key)
    ∧ (countable env db key api_id → counted db db' key api_id)
    ∧ (¬ countable env db key api_id → db' = db).
Proof. apply accepted_call. Qed.

Lemma verify_and_record_step (env : Env) (db : Db) (api_id : Z) (key : string)
    (sub : Subscription) (used : Z) (api : API) (count : Z) :
  no_faults env → Str.strip key ≠ "" →
  subscriptions db !! key = Some sub → sub_used_calls sub = Some used →
  apis db !! api_id = Some api → api_call_count api = Some count →
  in_good_standing (now env) api_id sub api →
  verify_and_record_api_call env db api_id None (Some key)
  = if match sub_remaining_calls sub with
       | Some remaining => remaining <=? 0
       | None => false
       end
    then (db, Throw quota_exhausted)
    else ({| apis := <[api_id := call_one api count]> (apis db);
             subscriptions := <[key := use_one sub used]> (subscriptions db) |},
          Return key).
Proof.
  intros Hf Hk Hsub Hused Hapi Hcount Hgood.
  unfold verify_and_record_api_call.
  rewrite !Hf, (verify_api_key_standing _ _ _ _ _ _ (Hf _) (Hf _) Hk Hsub Hapi Hgood).
  destruct (match sub_remaining_calls sub with Some _ => _ | None => _ end); [done|].
  by rewrite (record_api_call_counts _ _ _ _ _ _ _ _
                (Hf _) (Hf _) (Hf _) Hsub Hused Hapi Hcount).
Qed.

Lemma in_good_standing_counted (t api_id : Z) (sub : Subscription) (used : Z)
    (api : API) (count : Z) :
  in_good_standing t api_id sub api →
  in_good_standing t api_id (use_one sub used) (call_one api count).
Proof. done. Qed.

(** X28. A subscription in good standing with [n] remaining calls is granted
    exactly the first [n] of a sequence of calls and refused the others with
    429; an unlimited one is granted them all.  Each granted call adds one to
    the used calls of the subscription and to the call count of the API, and
    takes one from the remaining calls. *)
Theorem quota_is_enforced (envs : list Env) (db : Db) (api_id : Z) (key : string)
    (sub : Subscription) (used : Z) (api : API) (count : Z) :
  Forall (fun env => no_faults env ∧ in_good_standing (now env) api_id sub api) envs →
  Str.strip key ≠ "" →
  subscriptions db !! key = Some sub → sub_used_calls sub = Some used →
  apis db !! api_id = Some api → api_call_count api = Some count →
  let granted :=
    match sub_remaining_calls sub with
    | Some n => (length envs `min` Z.to_nat n)%nat
    | None => length envs
    end in
  ∃ db' sub' api',
    calls envs db api_id key
    = (db', replicate granted (Return key)
            ++ replicate (length envs - granted) (Throw quota_exhausted))%list
    ∧ subscriptions db' !! key = Some sub'
    ∧ sub_used_calls sub' = Some (used + Z.of_nat granted)
    ∧ sub_remaining_calls sub'
      = (fun n => n - Z.of_nat granted) <$> sub_remaining_calls sub
    ∧ apis db' !! api_id = Some api'
    ∧ api_call_count api' = Some (count + Z.of_nat granted).
Proof.
  revert db sub used api count.
  induction envs as [|env rest IH]; intros db sub used api count Henvs Hk Hsub Hused Hapi Hcount.
  - cbn [length calls]. exists db, sub, api.
    assert (match sub_remaining_calls sub with
            | Some n => (0 `min` Z.to_nat n)%nat | None => 0%nat end = 0%nat) as ->
      by by destruct (sub_remaining_calls sub).
    cbn [replicate app Nat.sub Z.of_nat]. rewrite !Z.add_0_r. split_and!; try done.
    destruct (sub_remaining_calls sub); cbn [fmap option_fmap option_map]; [|done].
    f_equal. lia.
  - apply Forall_cons in Henvs as [[Hf Hgood] Hrest].
    cbn [calls length].
    rewrite (verify_and_record_step _ _ _ _ _ _ _ _ Hf Hk Hsub Hused Hapi Hcount Hgood).
    destruct (sub_remaining_calls sub) as [n|] eqn:Hn.
    + destruct (Z.leb_spec n 0) as [Hle|Hlt].
      * destruct (IH db sub used api count Hrest Hk Hsub Hused Hapi Hcount)
          as (db' & sub' & api' & Hcalls & H1 & H2 & H3 & H4 & H5).
        rewrite Hn in Hcalls, H2, H3, H5. rewrite Hcalls.
        replace (Z.to_nat n) with 0%nat in * by lia.
        rewrite Nat.min_0_r in *. cbn [replicate app] in *.
        rewrite Nat.sub_0_r in *. cbn [replicate app].
        exists db', sub', api'. done.
      * set (db1 := {| apis := _; subscriptions := _ |}).
        assert (Hrest' : Forall (fun env => no_faults env
                  ∧ in_good_standing (now env) api_id (use_one sub used)
                      (call_one api count)) rest).
        { eapply Forall_impl; [exact Hrest|]. intros e [? ?]. split; [done|].
          by apply in_good_standing_counted. }
        destruct (IH db1 (use_one sub used) (used + 1) (call_one api count)
                    (count + 1) Hrest' Hk) as (db' & sub' & api' & Hcalls & H1 & H2 & H3 & H4 & H5).
        { unfold db1. cbn. apply lookup_insert_eq. }
        { done. }
        { unfold db1. cbn. apply lookup_insert_eq. }
        { done. }
        cbn [use_one sub_remaining_calls] in Hcalls, H2, H3, H5.
        rewrite Hn in Hcalls, H2, H3, H5.
        cbn [fmap option_fmap option_map] in Hcalls, H2, H3, H5.
        destruct (Z.ltb_spec 0 n); [|lia].
        rewrite Hcalls.
        assert (Hmin : (S (length rest) `min` Z.to_nat n
                        = S (length rest `min` Z.to_nat (n - 1)))%nat) by lia.
        rewrite Hmin. cbn [replicate app Nat.sub].
        exists db', sub', api'. split_and!; try done.
        -- rewrite H2. f_equal. lia.
        -- rewrite H3. cbn [fmap option_fmap option_map]. f_equal. lia.
        -- rewrite H5. f_equal. lia.
    + set (db1 := {| apis := _; subscriptions := _ |}).
      assert (Hrest' : Forall (fun env => no_faults env
                ∧ in_good_standing (now env) api_id (use_one sub used)
                    (call_one api count)) rest).
      { eapply Forall_impl; [exact Hrest|]. intros e [? ?]. split; [done|].
        by apply in_good_standing_counted. }
      destruct (IH db1 (use_one sub used) (used + 1) (call_one api count)
                  (count + 1) Hrest' Hk) as (db' & sub' & api' & Hcalls & H1 & H2 & H3 & H4 & H5).
      { unfold db1. cbn. apply lookup_insert_eq. }
      { done. }
      { unfold db1. cbn. apply lookup_insert_eq. }
      { done. }
      cbn [use_one sub_remaining_calls] in Hcalls, H2, H3, H5.
      rewrite Hn in Hcalls, H2, H3, H5.
      cbn [fmap option_fmap option_map] in Hcalls, H2, H3, H5.
      rewrite Hcalls. rewrite Nat.sub_diag. cbn [replicate app Nat.sub].
      rewrite Nat.sub_diag.
      exists db', sub', api'. split_and!; try done.
      -- rewrite H2. f_equal. lia.
      -- rewrite H5. f_equal. lia.
Qed.

Lemma quota_is_enforced_witness :
  ∃ db', calls [env_at 1; env_at 2; env_at 3] (db_with (Some 2)) 4 "key-1"
         = (db', [Return "key-1"; Return "key-1"; Throw quota_exhausted])
    ∧ (sub_remaining_calls <$> subscriptions db' !! "key-1") = Some (Some 0).
Proof.
  assert (Hgood : ∀ t, t < 2000 →
            no_faults (env_at t)
            ∧ in_good_standing (now (env_at t)) 4 (subscription_with (Some 2)) ip_api).
  { intros t Ht. split; [by intros op|].
    unfold in_good_standing. split_and!; try reflexivity; [exact Ht|].
    by eexists. }
  destruct (quota_is_enforced [env_at 1; env_at 2; env_at 3] (db_with (Some 2))
              4 "key-1" (subscription_with (Some 2)) 0 ip_api 10)
    as (db' & sub' & api' & Hcalls & Hsub & _ & Hrem & _).
  - constructor; [apply (Hgood 1); lia|].
    constructor; [apply (Hgood 2); lia|].
    constructor; [apply (Hgood 3); lia|]. constructor.
  - vm_compute. discriminate.
  - vm_compute. reflexivity.
  - reflexivity.
  - vm_compute. reflexivity.
  - reflexivity.
  - exists db'. split; [exact Hcalls|]. rewrite Hsub. cbn [fmap option_fmap option_map].
    rewrite Hrem. reflexivity.
Defined.


Lemma accepted_call_accounting_witness :
  ∃ db', verify_and_record_api_call (env_at 1) (db_with None) 4 None (Some "key-1")
         = (db', Return "key-1")
    ∧ (sub_used_calls <$> subscriptions db' !! "key-1") = Some (Some 1).
Proof.
  destruct (accepted_call_accounting (env_at 1) (db_with None) 4 "key-1")
    as (db' & Hcall & Hcounted & _); try reflexivity.
  exists db'. split; [exact Hcall|].
  destruct Hcounted as (sub & used & api & count & Hsub & Hused & _ & _ & ->).
  - unfold countable. split_and!; try reflexivity.
    + exists (subscription_with None), 0. split; [vm_compute|]; reflexivity.
    + exists ip_api, 10. split; [vm_compute|]; reflexivity.
  - cbn [subscriptions]. rewrite lookup_insert_eq.
    assert (sub = subscription_with None) as ->.
    { assert (subscriptions (db_with None) !! "key-1" = Some (subscription_with None)) as E
        by (vm_compute; reflexivity).
      rewrite E in Hsub. by injection Hsub. }
    cbn in Hused. injection Hused as <-. reflexivity.
Defined.

(** ** The endpoint *)

Lemma verification_fails (env : Env) (db : Db) (api_id : Z) (request : Request)
    (e : http_exc) :
  (key ← extract_api_key_from_request request;
   verify_api_key env db (Some key) api_id) = Throw e →
  verify_and_record_api_call env db api_id (Some request) None
  = if fault env OpSession then (db, Throw (Uncaught OtherError))
    else if fault env OpClose then (db, Throw (Uncaught OtherError))
    else (db, Throw e).
Proof.
  intros H. unfold verify_and_record_api_call.
  destruct (fault env OpSession); [done|].
  destruct (extract_api_key_from_request request) as [key|e1];
    cbn [mbind outcome_bind] in H |- *.
  - rewrite H. by destruct (fault env OpClose).
  - injection H as <-. by destruct (fault env OpClose).
Qed.

(** X29. A request whose key is missing or refused changes nothing in the tables
    and causes no lookup: the answer is the exception of the verification (a
    500 when the verification failed on the database), whatever the
    databases and the remote services would say. *)
Theorem rejected_request_costs_nothing (env : Env) (db : Db) (request : Request)
    (e : http_exc) :
  (key ← extract_api_key_from_request request;
   verify_api_key env db (Some key) API_ID) = Throw e →
  (query_ip env db request).1 = db
  ∧ (fault env OpSession = false → fault env OpClose = false →
     (query_ip env db request).2
     = Throw match e with
             | HTTPException status detail headers =>
                 HTTPException status detail headers
             | Uncaught x => internal_error env x
             end)
  ∧ (∀ w, query_ip (set_world w env) db request = query_ip env db request).
Proof.
  intros H. split_and!.
  - unfold query_ip. rewrite (verification_fails _ _ _ _ _ H).
    by destruct (fault env OpSession), (fault env OpClose).
  - intros Hs Hc. unfold query_ip.
    rewrite (verification_fails _ _ _ _ _ H), Hs, Hc. by destruct e.
  - intros w. unfold query_ip.
    assert (H' : (key ← extract_api_key_from_request request;
                  verify_api_key (set_world w env) db (Some key) API_ID) = Throw e)
      by exact H.
    rewrite (verification_fails _ _ _ _ _ H), (verification_fails _ _ _ _ _ H').
    cbn [set_world fault].
    by destruct (fault env OpSession), (fault env OpClose), e.
Qed.

Lemma rejected_request_costs_nothing_witness :
  query_ip (env_at 1) (db_with (Some 0)) (request_with (Some "key-1") (Some "8.8.8.8"))
  = (db_with (Some 0), Throw quota_exhausted).
Proof.
  destruct (rejected_request_costs_nothing (env_at 1) (db_with (Some 0))
              (request_with (Some "key-1") (Some "8.8.8.8")) quota_exhausted)
    as (Hdb & Hout & _).
  - vm_compute. reflexivity.
  - specialize (Hout eq_refl eq_refl).
    destruct (query_ip _ _ _) as [db' r]. cbn [fst snd] in Hdb, Hout.
    by rewrite Hdb, Hout.
Defined.




